(** * trip-plan.py: the itinerary pipeline, embedded and verified

    The script reads destination rows, gives every row an arrival and a
    departure time, asks a routing service for the driving time between
    consecutive rows, groups the stops by day label and writes a text and an
    HTML report.  This file embeds the script function by function and
    proves the properties its specification states.

    Conventions of the embedding.
    - A Python [str] is a [string]: the bytes of its UTF-8 encoding.  The
      character classes of [int()], [str.lower], [str.upper] and
      [str.strip] are the ASCII ones; a text that holds digits or blanks
      from outside ASCII is outside the embedding.
    - A Python [int] is a [Z].
    - Code that can raise returns a [result]; a bare [except:] is a match
      on it.
    - Floating point numbers are not represented: durations and driving
      seconds are whole seconds, and the coordinates of a row are kept
      abstract (see [Coord]). *)

From Stdlib Require Import ZArith List String Ascii Bool Lia Sorted Permutation.
Import ListNotations.

Local Open Scope string_scope.
Local Open Scope Z_scope.

(** ** Python values *)

Module Py.

(** The exceptions that occur in the script. *)
Inductive exn : Type :=
| ValueError
| TypeError
| KeyError
| IndexError
| AttributeError
| OverflowError
| FileNotFoundError
| OtherError (what : string).

Inductive result (A : Type) : Type :=
| Ok (a : A)
| Raise (e : exn).

Arguments Ok {A} a.
Arguments Raise {A} e.

Definition bind {A B : Type} (r : result A) (k : A -> result B) : result B :=
  match r with
  | Ok a => k a
  | Raise e => Raise e
  end.

(** [try: r  except: d] *)
Definition try_except {A : Type} (r : result A) (d : A) : A :=
  match r with
  | Ok a => a
  | Raise _ => d
  end.

Definition nl : string := String (ascii_of_nat 10) EmptyString.

(** *** Characters *)

Definition code (c : ascii) : N := N_of_ascii c.

Definition is_digit (c : ascii) : bool :=
  ((48 <=? code c) && (code c <=? 57))%N.

Definition digit_val (c : ascii) : N := (code c - 48)%N.

Definition digit_char (d : N) : ascii := ascii_of_N (48 + d).

(** The blanks [int()] skips around an ASCII literal: tab, newline,
    vertical tab, form feed, carriage return and space. *)
Definition is_space (c : ascii) : bool :=
  (((9 <=? code c) && (code c <=? 13)) || (code c =? 32))%N.

(** The blanks [str.strip()] removes: the above and the four separators
    28..31. *)
Definition is_strip_space (c : ascii) : bool :=
  (is_space c || ((28 <=? code c) && (code c <=? 31)))%N.

Definition lower_char (c : ascii) : ascii :=
  if ((65 <=? code c) && (code c <=? 90))%N then ascii_of_N (code c + 32) else c.

Definition upper_char (c : ascii) : ascii :=
  if ((97 <=? code c) && (code c <=? 122))%N then ascii_of_N (code c - 32) else c.

(** *** [str] methods *)

Fixpoint map_chars (f : ascii -> ascii) (s : string) : string :=
  match s with
  | EmptyString => EmptyString
  | String c s' => String (f c) (map_chars f s')
  end.

Definition lower (s : string) : string := map_chars lower_char s.
Definition upper (s : string) : string := map_chars upper_char s.

Fixpoint lstrip (s : string) : string :=
  match s with
  | String c s' => if is_strip_space c then lstrip s' else s
  | EmptyString => EmptyString
  end.

Fixpoint rstrip (s : string) : string :=
  match s with
  | EmptyString => EmptyString
  | String c s' =>
      match rstrip s' with
      | EmptyString => if is_strip_space c then EmptyString else String c EmptyString
      | r => String c r
      end
  end.

Definition strip (s : string) : string := rstrip (lstrip s).

(** [s.split(sep)] for a separator of one character: never empty. *)
Fixpoint split (sep : ascii) (s : string) : list string :=
  match s with
  | EmptyString => [EmptyString]
  | String c s' =>
      if Ascii.eqb c sep then EmptyString :: split sep s'
      else match split sep s' with
           | p :: ps => String c p :: ps
           | [] => [String c EmptyString]
           end
  end.

(** [sep.join(parts)] *)
Definition join (sep : string) (parts : list string) : string :=
  String.concat sep parts.

(** [s.replace(old, new)] for a non-empty [old] (both uses in the script):
    occurrences are replaced from the left and do not overlap; [skip] counts
    the characters of a replaced occurrence still to pass over. *)
Fixpoint replace_from (old new : string) (skip : nat) (s : string) : string :=
  match s with
  | EmptyString => EmptyString
  | String c s' =>
      match skip with
      | S k => replace_from old new k s'
      | O =>
          if String.prefix old s
          then new ++ replace_from old new (Nat.pred (String.length old)) s'
          else String c (replace_from old new O s')
      end
  end.

Definition replace (old new s : string) : string := replace_from old new O s.

(** *** [str(n)] for an [int] *)

Fixpoint digits_from (fuel : nat) (n : N) (acc : string) : string :=
  match fuel with
  | O => acc
  | S f =>
      let acc' := String (digit_char (n mod 10)) acc in
      if (n <? 10)%N then acc' else digits_from f (n / 10) acc'
  end.

Definition str_of_N (n : N) : string :=
  digits_from (S (N.size_nat n)) n EmptyString.

Definition str_of_int (z : Z) : string :=
  match z with
  | Zneg p => String "-" (str_of_N (Npos p))
  | _ => str_of_N (Z.to_N z)
  end.

(** Two digits, zero padded: the [%M] and [%d] of [strftime]. *)
Definition two_digits (z : Z) : string :=
  if z <? 10 then String "0" (str_of_int z) else str_of_int z.

(** *** [int(s)] for a [str]

    Blanks, an optional sign, then decimal digits in which single
    underscores may separate digits, then blanks up to the end.  A literal
    of more than [int_max_str_digits] digits is refused (the interpreter's
    default limit). *)

Definition int_max_str_digits : nat := 4300.

Fixpoint skip_spaces (s : string) : string :=
  match s with
  | String c s' => if is_space c then skip_spaces s' else s
  | EmptyString => EmptyString
  end.

(** Reads the digits.  [acc] is the value read so far, [nd] the number of
    digits read, [sep] tells that no digit has been read since the start or
    since the last underscore.  Gives the value, the digit count and the
    unread rest. *)
Fixpoint scan_digits (s : string) (acc : N) (nd : nat) (sep : bool)
  : option (N * nat * string) :=
  match s with
  | String c s' =>
      if is_digit c then scan_digits s' (10 * acc + digit_val c)%N (S nd) false
      else if Ascii.eqb c "_" then
             (if sep then None else scan_digits s' acc nd true)
      else if sep then None else Some (acc, nd, s)
  | EmptyString => if sep then None else Some (acc, nd, EmptyString)
  end.

Definition int_of_str (s : string) : result Z :=
  let s1 := skip_spaces s in
  let '(neg, s2) :=
    match s1 with
    | String c r =>
        if Ascii.eqb c "-" then (true, r)
        else if Ascii.eqb c "+" then (false, r)
        else (false, s1)
    | EmptyString => (false, s1)
    end in
  match scan_digits s2 0%N O true with
  | None => Raise ValueError
  | Some (v, nd, rest) =>
      match skip_spaces rest with
      | EmptyString =>
          if Nat.ltb int_max_str_digits nd then Raise ValueError
          else Ok (if neg then - Z.of_N v else Z.of_N v)
      | _ => Raise ValueError
      end
  end.

End Py.

Import Py.

Notation "x <- r ;; k" := (Py.bind r (fun x => k))
  (at level 61, r at next level, right associativity).

(** ** [datetime.timedelta]

    A duration in whole seconds.  Python keeps it as days, seconds and
    microseconds and refuses a number of days of magnitude above
    999999999. *)

Module Timedelta.

Definition timedelta : Type := Z.

Definition max_days : Z := 999999999.

Definition in_range (secs : Z) : bool :=
  (- max_days <=? secs / 86400) && (secs / 86400 <=? max_days).

Definition of_seconds (secs : Z) : result timedelta :=
  if in_range secs then Ok secs else Raise OverflowError.

(** [timedelta(hours=h, minutes=m)] *)
Definition make (hours minutes : Z) : result timedelta :=
  of_seconds (hours * 3600 + minutes * 60).

(** [timedelta(hours=1)] *)
Definition one_hour : timedelta := 3600.

(** [int(td.total_seconds())]: exact, the whole range lies below 2^53. *)
Definition total_seconds (td : timedelta) : Z := td.

End Timedelta.

Abbreviation timedelta := Timedelta.timedelta.

(** ** [datetime.datetime]

    A naive timestamp, held as the seconds elapsed since 0001-01-01 00:00:00
    (day ordinal 1).  Python holds the calendar fields; they are recovered
    here by the interpreter's own ordinal arithmetic.  The last day is
    9999-12-31, ordinal 3652059. *)

Module Datetime.

Definition datetime : Type := Z.

Definition max_ordinal : Z := 3652059.

Definition is_leap (y : Z) : bool :=
  (y mod 4 =? 0) && (negb (y mod 100 =? 0) || (y mod 400 =? 0)).

Definition days_before_year (y : Z) : Z :=
  let y1 := y - 1 in y1 * 365 + y1 / 4 - y1 / 100 + y1 / 400.

Definition days_in_month_table : list Z :=
  [31; 28; 31; 30; 31; 30; 31; 31; 30; 31; 30; 31].

Definition days_in_month (y m : Z) : Z :=
  if (m =? 2) && is_leap y then 29
  else nth (Z.to_nat (m - 1)) days_in_month_table 0.

(** Days of the year before the first of month [m]. *)
Definition days_before_month (y m : Z) : Z :=
  fold_right Z.add 0 (firstn (Z.to_nat (m - 1)) days_in_month_table)
  + (if (2 <? m) && is_leap y then 1 else 0).

Definition ymd2ord (y m d : Z) : Z :=
  days_before_year y + days_before_month y m + d.

(** [datetime(y, m, d, hh, mm)] *)
Definition make (y m d hh mm : Z) : datetime :=
  (ymd2ord y m d - 1) * 86400 + hh * 3600 + mm * 60.

Definition in_range (t : Z) : bool :=
  (0 <=? t) && (t <? max_ordinal * 86400).

(** [t + td] *)
Definition add (t : datetime) (td : timedelta) : result datetime :=
  if in_range (t + td) then Ok (t + td) else Raise OverflowError.

Definition toordinal (t : datetime) : Z := t / 86400 + 1.
Definition hour (t : datetime) : Z := (t mod 86400) / 3600.
Definition minute (t : datetime) : Z := (t mod 3600) / 60.

(** The interpreter's [_ord2ymd]. *)
Definition ord2ymd (ordinal : Z) : Z * Z * Z :=
  let n := ordinal - 1 in
  let n400 := n / 146097 in
  let n := n mod 146097 in
  let n100 := n / 36524 in
  let n := n mod 36524 in
  let n4 := n / 1461 in
  let n := n mod 1461 in
  let n1 := n / 365 in
  let n := n mod 365 in
  let y := n400 * 400 + 1 + n100 * 100 + n4 * 4 + n1 in
  if (n1 =? 4) || (n100 =? 4) then (y - 1, 12, 31)
  else
    let leapyear := (n1 =? 3) && (negb (n4 =? 24) || (n100 =? 3)) in
    let m := Z.shiftr (n + 50) 5 in
    let preceding :=
      fold_right Z.add 0 (firstn (Z.to_nat (m - 1)) days_in_month_table)
      + (if (2 <? m) && leapyear then 1 else 0) in
    if n <? preceding then
      let m' := m - 1 in
      let preceding' :=
        preceding
        - (nth (Z.to_nat (m' - 1)) days_in_month_table 0
           + (if (m' =? 2) && leapyear then 1 else 0)) in
      (y, m', n - preceding' + 1)
    else (y, m, n - preceding + 1).

Definition year (t : datetime) : Z := fst (fst (ord2ymd (toordinal t))).
Definition month (t : datetime) : Z := snd (fst (ord2ymd (toordinal t))).
Definition day (t : datetime) : Z := snd (ord2ymd (toordinal t)).

(** Monday is 0. *)
Definition weekday (t : datetime) : Z := (toordinal t + 6) mod 7.

Definition day_names : list string :=
  ["Monday"; "Tuesday"; "Wednesday"; "Thursday"; "Friday"; "Saturday"; "Sunday"].

Definition month_names : list string :=
  ["January"; "February"; "March"; "April"; "May"; "June"; "July";
   "August"; "September"; "October"; "November"; "December"].

(** The text of [%A, %B %d] for the day of ordinal [ordinal], in the C
    locale the script runs in: weekday name, month name, day of the month
    in two digits. *)
Definition day_text (ordinal : Z) : string :=
  let '(_, m, d) := ord2ymd ordinal in
  nth (Z.to_nat ((ordinal + 6) mod 7)) day_names ""
  ++ ", " ++ nth (Z.to_nat (m - 1)) month_names ""
  ++ " " ++ two_digits d.

(** [t.strftime("%A, %B %d")] *)
Definition strftime_day (t : datetime) : string := day_text (toordinal t).

(** [t.strftime("%-I:%M %p")] *)
Definition strftime_clock (t : datetime) : string :=
  let h12 := hour t mod 12 in
  str_of_int (if h12 =? 0 then 12 else h12)
  ++ ":" ++ two_digits (minute t)
  ++ " " ++ (if hour t <? 12 then "AM" else "PM").

(** What the specification calls the calendar date of a timestamp. *)
Definition calendar_date (t : datetime) : Z * Z * Z := ord2ymd (toordinal t).

End Datetime.

Abbreviation datetime := Datetime.datetime.

(** ** Decoded JSON

    What [gmaps.distance_matrix] hands back: the decoded body of the
    service's answer.  Numbers are integers here.  The entries of a [JDict]
    are the items of the Python dict, so a key occurs once. *)

Module Json.

Local Unset Elimination Schemes.

Inductive json : Type :=
| JNull
| JBool (b : bool)
| JInt (n : Z)
| JStr (s : string)
| JList (items : list json)
| JDict (entries : list (string * json)).

Local Set Elimination Schemes.

Fixpoint lookup (k : string) (entries : list (string * json)) : option json :=
  match entries with
  | [] => None
  | (k', v) :: rest => if String.eqb k k' then Some v else lookup k rest
  end.

(** [v[k]] for a [str] key *)
Definition getitem (v : json) (k : string) : result json :=
  match v with
  | JDict entries =>
      match lookup k entries with
      | Some x => Ok x
      | None => Raise KeyError
      end
  | _ => Raise TypeError
  end.

(** The number of bytes of the UTF-8 character that starts with [c]. *)
Definition utf8_width (c : ascii) : nat :=
  if (code c <? 192)%N then 1%nat
  else if (code c <? 224)%N then 2%nat
  else if (code c <? 240)%N then 3%nat
  else 4%nat.

(** [v[0]] *)
Definition first (v : json) : result json :=
  match v with
  | JList (x :: _) => Ok x
  | JList [] => Raise IndexError
  | JStr (String c r) => Ok (JStr (substring 0 (utf8_width c) (String c r)))
  | JStr EmptyString => Raise IndexError
  | JDict _ => Raise KeyError
  | _ => Raise TypeError
  end.

(** [v.get(k)]: only a dict has the method. *)
Definition get (v : json) (k : string) : result json :=
  match v with
  | JDict entries =>
      match lookup k entries with
      | Some x => Ok x
      | None => Ok JNull
      end
  | _ => Raise AttributeError
  end.

(** [v.replace(old, new)]: only a str has the method. *)
Definition str_replace (v : json) (old new : string) : result json :=
  match v with
  | JStr s => Ok (JStr (Py.replace old new s))
  | _ => Raise AttributeError
  end.

(** [v == 'OK'] *)
Definition is_ok (v : json) : bool :=
  match v with
  | JStr s => String.eqb s "OK"
  | _ => false
  end.

(** How Python prints a list or a dict inside an f-string (their [repr]):
    left open, it needs the interpreter's table of printable characters. *)
Class Repr : Type := repr_container : json -> string.

(** [f"{v}"] *)
Definition str `{Repr} (v : json) : string :=
  match v with
  | JNull => "None"
  | JBool true => "True"
  | JBool false => "False"
  | JInt n => str_of_int n
  | JStr s => s
  | _ => repr_container v
  end.

(** [timedelta(seconds=v)]: a number is needed ([True] counts as 1). *)
Definition timedelta_seconds (v : json) : result timedelta :=
  match v with
  | JInt n => Timedelta.of_seconds n
  | JBool b => Timedelta.of_seconds (if b then 1 else 0)
  | _ => Raise TypeError
  end.

End Json.

Import Json.

(** ** The table of destinations

    A cell of the table is a text or missing; pandas gives a missing cell as
    the float NaN.  (A cell of a numeric column behaves in this script as the
    text [str()] gives for it.)  Latitude and longitude are whatever the
    table holds, compared with [==] and printed inside f-strings: both are
    left to the instance. *)

Inductive cell : Type :=
| NaN
| Str (s : string).

(** [pd.isna(x)] *)
Definition isna (x : cell) : bool :=
  match x with
  | NaN => true
  | Str _ => false
  end.

(** [str(x)], also [f"{x}"] *)
Definition cell_str (x : cell) : string :=
  match x with
  | NaN => "nan"
  | Str s => s
  end.

(** [x == ""] *)
Definition cell_is_empty (x : cell) : bool :=
  match x with
  | NaN => false
  | Str s => String.eqb s ""
  end.

Class Coord (coord : Type) : Type := {
  (** [a == b] *)
  coord_eq : coord -> coord -> bool;
  (** [f"{a}"] *)
  coord_fmt : coord -> string
}.

Module Row.
Record row (coord : Type) : Type := {
  name : cell;
  lat : coord;
  lng : coord;
  stay : cell;
  comments : cell
}.
Arguments name {coord} _.
Arguments lat {coord} _.
Arguments lng {coord} _.
Arguments stay {coord} _.
Arguments comments {coord} _.
End Row.

(** One entry of [itinerary]: the dict built at the end of an iteration. *)
Module Stop.
Record stop (coord : Type) : Type := {
  name : cell;
  lat : coord;
  lng : coord;
  stay_str : string;
  arrival : datetime;
  departure : datetime;
  drive_to_next : string;
  comments : string;
  pin : string
}.
Arguments name {coord} _.
Arguments lat {coord} _.
Arguments lng {coord} _.
Arguments stay_str {coord} _.
Arguments arrival {coord} _.
Arguments departure {coord} _.
Arguments drive_to_next {coord} _.
Arguments comments {coord} _.
Arguments pin {coord} _.
End Stop.

Abbreviation stop := Stop.stop.

(** ** Configuration *)

Definition INPUT_FILE : string := "trip-destinations.csv".
Definition TXT_OUTPUT : string := "trip-itinerary.txt".
Definition HTML_OUTPUT : string := "index.html".
Definition TRIP_START_TIME : datetime := Datetime.make 2026 2 26 22 0.

(** ** The helpers *)

(** [h, m = map(int, parts)] *)
Definition unpack_hm (parts : list string) : result (Z * Z) :=
  match parts with
  | [a; b] =>
      h <- int_of_str a;;
      m <- int_of_str b;;
      Ok (h, m)
  | _ => Raise ValueError
  end.

Definition parse_stay (stay_str : cell) : timedelta :=
  try_except
    (if isna stay_str || cell_is_empty stay_str then Ok Timedelta.one_hour
     else
       hm <- unpack_hm (split ":" (cell_str stay_str));;
       Timedelta.make (fst hm) (snd hm))
    Timedelta.one_hour.

Definition format_stay_string (td : timedelta) : string :=
  let total_seconds := Timedelta.total_seconds td in
  str_of_int (total_seconds / 3600) ++ " hour(s) "
  ++ str_of_int ((total_seconds mod 3600) / 60) ++ " minutes".

Section Trip.

Context {coord : Type} `{Coord coord} `{Repr}.

Definition get_pin_link (lat lng : coord) : string :=
  "http://maps.google.com/?q=" ++ coord_fmt lat ++ "," ++ coord_fmt lng.

(** [f"{s['lat']},{s['lng']}"] *)
Definition path_segment (s : stop coord) : string :=
  coord_fmt (Stop.lat s) ++ "," ++ coord_fmt (Stop.lng s).

Definition get_daily_route_link (stops : list (stop coord)) : string :=
  match stops with
  | [] => ""
  | _ =>
      let base_url := "https://www.google.com/maps/dir/" in
      let path_segments := map path_segment stops in
      base_url ++ join "/" path_segments
  end.

(** *** The routing collaborator

    [gmaps.distance_matrix(origin, destination, mode="driving")].  Its
    answer may depend on what it was asked before, so it gets the earlier
    calls too; it answers with a decoded body or raises. *)

Definition call : Type := (coord * coord) * (coord * coord).
Definition router : Type := list call -> call -> result json.

(** [res['rows'][0]['elements'][0]] *)
Definition element_of (res : json) : result json :=
  rows <- getitem res "rows";;
  row0 <- first rows;;
  elements <- getitem row0 "elements";;
  first elements.

(** The body of the [try] after the call: from the answer to [drive_time]
    and [drive_seconds]. *)
Definition read_answer (res : json) : result (string * json) :=
  element <- element_of res;;
  status <- get element "status";;
  if is_ok status then
    duration <- getitem element "duration";;
    text <- getitem duration "text";;
    text1 <- str_replace text "hours" "hrs";;
    text2 <- str_replace text1 "mins" "min";;
    drive_time <- match text2 with JStr t => Ok t | _ => Raise AttributeError end;;
    duration' <- getitem element "duration";;
    drive_seconds <- getitem duration' "value";;
    Ok (drive_time, drive_seconds)
  else Ok ("0 min (" ++ Json.str status ++ ")", JInt 0).

(** The block under [if i < len(df) - 1]: the drive from [row] to
    [next_row].  Gives [drive_time], [drive_seconds] and the calls made so
    far. *)
Definition drive_to_next_row (gmaps : router) (calls : list call)
    (row next_row : Row.row coord) : (string * json) * list call :=
  if coord_eq (Row.lat row) (Row.lat next_row)
     && coord_eq (Row.lng row) (Row.lng next_row)
  then (("0 min (Same location)", JInt 0), calls)
  else
    let c := ((Row.lat row, Row.lng row), (Row.lat next_row, Row.lng next_row)) in
    (try_except (res <- gmaps calls c;; read_answer res)
                ("0 min (API Error)", JInt 0),
     (calls ++ [c])%list).

(** *** The loop over the rows

    [current_time] and [itinerary] are the script's variables.  [calls]
    lists the calls made to the routing collaborator.  [locals] is not a
    variable of the script: it keeps, for every stop appended, the
    [stay_td] and [drive_seconds] of its iteration, which the script drops
    when the iteration ends. *)

Record state : Type := {
  current_time : datetime;
  itinerary : list (stop coord);
  calls : list call;
  locals : list (timedelta * json)
}.

Definition initial : state :=
  {| current_time := TRIP_START_TIME; itinerary := []; calls := []; locals := [] |}.

(** The dict passed to [itinerary.append]. *)
Definition make_stop (row : Row.row coord) (stay_td : timedelta)
    (arrival departure : datetime) (drive_time : string) : stop coord :=
  {| Stop.name := Row.name row;
     Stop.lat := Row.lat row;
     Stop.lng := Row.lng row;
     Stop.stay_str := format_stay_string stay_td;
     Stop.arrival := arrival;
     Stop.departure := departure;
     Stop.drive_to_next := drive_time;
     Stop.comments := cell_str (Row.comments row);
     Stop.pin := get_pin_link (Row.lat row) (Row.lng row) |}.

(** One iteration: [row] is [df.iloc[i]] and [next] is [df.iloc[i+1]] when
    there is one.  Gives the state it leaves and the exception it raised, if
    any. *)
Definition iteration (gmaps : router) (row : Row.row coord)
    (next : option (Row.row coord)) (st : state) : state * option exn :=
  let stay_td := parse_stay (Row.stay row) in
  let arrival := current_time st in
  match Datetime.add arrival stay_td with
  | Raise e => (st, Some e)
  | Ok departure =>
      let '((drive_time, drive_seconds), calls') :=
        match next with
        | Some next_row => drive_to_next_row gmaps (calls st) row next_row
        | None => (("-", JInt 0), calls st)
        end in
      let appended :=
        {| current_time := current_time st;
           itinerary :=
             (itinerary st
              ++ [make_stop row stay_td arrival departure drive_time])%list;
           calls := calls';
           locals := (locals st ++ [(stay_td, drive_seconds)])%list |} in
      match (td <- timedelta_seconds drive_seconds;; Datetime.add departure td) with
      | Raise e => (appended, Some e)
      | Ok t =>
          ({| current_time := t;
              itinerary := itinerary appended;
              calls := calls appended;
              locals := locals appended |}, None)
      end
  end.

(** [for i in range(len(df))]: stops at the first exception. *)
Fixpoint loop (gmaps : router) (df : list (Row.row coord)) (st : state)
  : state * option exn :=
  match df with
  | [] => (st, None)
  | row :: rest =>
      match iteration gmaps row (hd_error rest) st with
      | (st', Some e) => (st', Some e)
      | (st', None) => loop gmaps rest st'
      end
  end.

(** *** Grouping by day

    [days] is a dict, which keeps its keys in the order of their first
    insertion: a list of entries, a key occurring once. *)

Definition days_t : Type := list (string * list (stop coord)).

(** [if d not in days: days[d] = []] then [days[d].append(s)] *)
Fixpoint days_append (d : string) (s : stop coord) (days : days_t) : days_t :=
  match days with
  | [] => [(d, [s])]
  | (d', stops) :: rest =>
      if String.eqb d d' then (d', (stops ++ [s])%list) :: rest
      else (d', stops) :: days_append d s rest
  end.

Definition day_label (s : stop coord) : string :=
  Datetime.strftime_day (Stop.arrival s).

Definition group_days (itinerary : list (stop coord)) : days_t :=
  fold_left (fun days s => days_append (day_label s) s days) itinerary [].

End Trip.

Arguments call coord : clear implicits.
Arguments router coord : clear implicits.
Arguments state coord : clear implicits.
Arguments days_t coord : clear implicits.

(** ** The two renderers

    A renderer is the list of the texts it passes to [f.write], in order; the
    file holds their concatenation. *)

Section Render.

Context {coord : Type} `{Coord coord}.

(** [if b: f.write(w)] *)
Definition when (b : bool) (w : string) : list string :=
  if b then [w] else [].

(** The writes for one stop of the text report. *)
Definition txt_stop (s : stop coord) : list string :=
  List.concat
    [ [ "📍 " ++ cell_str (Stop.name s) ++ nl
        ++ "   🕒 Arrive:  " ++ Datetime.strftime_clock (Stop.arrival s) ++ nl
        ++ "   ⌛ Stay:    " ++ Stop.stay_str s ++ nl
        ++ "   🛫 Depart:  " ++ Datetime.strftime_clock (Stop.departure s) ++ nl ];
      when (negb (String.eqb (Stop.drive_to_next s) "-"))
           ("   🚗 Drive:   " ++ Stop.drive_to_next s ++ " to next destination" ++ nl);
      [ "   🔗 Pin:      " ++ Stop.pin s ++ nl ];
      when (negb (String.eqb (lower (Stop.comments s)) "no comments"))
           ("   💬 Info:    " ++ Stop.comments s ++ nl);
      [ nl ] ].

(** The writes for one day of the text report. *)
Definition txt_day (day : string * list (stop coord)) : list string :=
  let '(d, stops) := day in
  List.concat
    [ [ "----------------------------------------" ++ nl
        ++ ">>> " ++ upper d ++ " <<<" ++ nl
        ++ "----------------------------------------" ++ nl ++ nl;
        "🗺️ FULL DAY ROUTE MAP: " ++ get_daily_route_link stops ++ nl ++ nl ];
      flat_map txt_stop stops ].

Definition render_txt (days : days_t coord) : list string :=
  flat_map txt_day days.

Definition html_head : list string :=
  ["<!DOCTYPE html><html><head><meta charset='utf-8'><meta name='viewport' content='width=device-width, initial-scale=1'><style>";
   "body{font-family:sans-serif; background:#f4f4f9; padding:10px; line-height:1.5; color: #333;}";
   ".day-box{background:#fff; border-radius:10px; padding:15px; margin-bottom:25px; box-shadow:0 2px 5px rgba(0,0,0,0.1);}";
   "h2{color:#2c3e50; border-bottom:2px solid #3498db; padding-bottom:5px; margin-top: 0;}";
   ".map-btn{display:block; background:#3498db; color:#fff; text-align:center; padding:12px; border-radius:5px; text-decoration:none; margin:10px 0 20px 0; font-weight:bold;}";
   ".stop{border-left:4px solid #e74c3c; padding-left:15px; margin-bottom:20px;}";
   ".stop-name{font-weight:bold; font-size:1.1em; color:#e74c3c; margin-bottom: 5px;}";
   ".details{font-size: 0.95em; color: #555;}";
   ".pin-link{display: inline-block; margin-top: 8px; color:#3498db; text-decoration:none; font-weight: bold;}";
   ".comment-box{margin-top: 5px; margin-bottom: 10px; padding: 8px; background: #fff9c4; border-radius: 4px; font-size: 0.9em; color: #444; border-left: 3px solid #fbc02d;}";
   "</style></head><body><h1 style='text-align:center;'>Trip Itinerary</h1>"].

(** The writes for one stop of the HTML page. *)
Definition html_stop (s : stop coord) : list string :=
  List.concat
    [ [ "<div class='stop'><div class='stop-name'>📍 " ++ cell_str (Stop.name s) ++ "</div>" ];
      when (negb (String.eqb (lower (Stop.comments s)) "no comments")
            && negb (String.eqb (strip (Stop.comments s)) ""))
           ("<div class='comment-box'>💬 <b>Info:</b> " ++ Stop.comments s ++ "</div>");
      [ "<div class='details'>";
        "🕒 <b>Arrive:</b> " ++ Datetime.strftime_clock (Stop.arrival s) ++ "<br>";
        "⌛ <b>Stay:</b> " ++ Stop.stay_str s ++ "<br>";
        "🛫 <b>Depart:</b> " ++ Datetime.strftime_clock (Stop.departure s) ++ "<br>" ];
      when (negb (String.eqb (Stop.drive_to_next s) "-"))
           ("🚗 <b>Drive:</b> " ++ Stop.drive_to_next s ++ " to next destination<br>");
      [ "<a class='pin-link' href='" ++ Stop.pin s ++ "'>🔗 View Map Pin</a>";
        "</div></div>" ] ].

(** The writes for one day of the HTML page. *)
Definition html_day (day : string * list (stop coord)) : list string :=
  let '(d, stops) := day in
  List.concat
    [ [ "<div class='day-box'><h2>" ++ d ++ "</h2>";
        "<a class='map-btn' href='" ++ get_daily_route_link stops
        ++ "'>View Map For Entire Day's Route!</a>" ];
      flat_map html_stop stops;
      [ "</div>" ] ].

Definition render_html (days : days_t coord) : list string :=
  List.concat [ html_head; flat_map html_day days; [ "</body></html>" ] ].

End Render.

(** ** [main]

    What the script finds around it, and what it leaves behind. *)

Record env (coord : Type) : Type := {
  (** [os.getenv('GOOGLE_MAPS_API_KEY')] *)
  API_KEY : option string;
  (** [googlemaps.Client(key=API_KEY)]: raises on a key it refuses *)
  Client : string -> result unit;
  (** [pd.read_csv(INPUT_FILE, comment='#')] *)
  read_csv : result (list (Row.row coord));
  (** [gmaps.distance_matrix] *)
  distance_matrix : router coord
}.

Arguments API_KEY {coord} _.
Arguments Client {coord} _ _.
Arguments read_csv {coord} _.
Arguments distance_matrix {coord} _.

Record outcome : Type := {
  (** the lines printed, in order *)
  printed : list string;
  (** the files written, in order, each with its content *)
  files : list (string * string);
  (** the exception that ended the run, if one did *)
  uncaught : option exn
}.

Section Main.

Context {coord : Type} `{Coord coord} `{Repr}.

Definition stopped (out : list string) (e : option exn) : outcome :=
  {| printed := out; files := []; uncaught := e |}.

Definition main (w : env coord) : outcome :=
  match API_KEY w with
  | None | Some EmptyString =>
      stopped [ "❌ Error: GOOGLE_MAPS_API_KEY not set." ] None
  | Some key =>
      match Client w key with
      | Raise e => stopped [] (Some e)
      | Ok _ =>
          match read_csv w with
          | Raise FileNotFoundError =>
              stopped [ "❌ Error: " ++ INPUT_FILE ++ " not found." ] None
          | Raise e => stopped [] (Some e)
          | Ok df =>
              let start := "🚀 Calculating route data via Google Maps API..." in
              match loop (distance_matrix w) df initial with
              | (_, Some e) => stopped [ start ] (Some e)
              | (st, None) =>
                  let days := group_days (itinerary st) in
                  {| printed :=
                       [ start;
                         "✅ Success! Generated:" ++ nl ++ "   - " ++ TXT_OUTPUT
                         ++ nl ++ "   - " ++ HTML_OUTPUT ];
                     files :=
                       [ (TXT_OUTPUT, String.concat "" (render_txt days));
                         (HTML_OUTPUT, String.concat "" (render_html days)) ];
                     uncaught := None |}
              end
          end
      end
  end.

End Main.

(** ** A table with whole-number coordinates

    When every latitude and longitude of the table is a whole number, pandas
    reads them as integers: [==] is equality and an f-string prints the
    decimal digits.  Lists and dicts are printed by a stand-in here. *)

#[export] Instance Z_Coord : Coord Z :=
  {| coord_eq := Z.eqb; coord_fmt := str_of_int |}.

#[export] Instance stand_in_Repr : Repr := fun _ => "...".

(** ** Notions the statements use *)

(** Every character of [s] passes [p]. *)
Fixpoint every (p : ascii -> bool) (s : string) : bool :=
  match s with
  | EmptyString => true
  | String c s' => p c && every p s'
  end.

(** [c in s] *)
Definition has_char (c : ascii) (s : string) : bool :=
  negb (every (fun x => negb (Ascii.eqb x c)) s).

(** The number a run of decimal digits denotes, read after [acc]. *)
Fixpoint digits_value (s : string) (acc : N) : N :=
  match s with
  | EmptyString => acc
  | String c s' => digits_value s' (10 * acc + digit_val c)%N
  end.

(** How many digits the decimal text of [z] has. *)
Definition digit_count (z : Z) : nat :=
  String.length (str_of_N (Z.abs_N z)).

(** The text "H:M" for two integers, each in its decimal digits. *)
Definition stay_text (h m : Z) : string :=
  str_of_int h ++ ":" ++ str_of_int m.

Section Notions.

Context {coord : Type} `{Coord coord} `{Repr}.

(** What a run of the loop that starts with the clock at [t] appends for the
    rows [df]: the stops and, beside each, its [stay_td] and
    [drive_seconds].  The run may end early; it goes past a stop only when
    its [drive_seconds] made a duration. *)
Inductive run_from : datetime -> list (Row.row coord) -> list (stop coord)
                     -> list (timedelta * json) -> Prop :=
| run_none t df : run_from t df [] []
| run_last t row df drive_time ds :
    run_from t (row :: df)
      [make_stop row (parse_stay (Row.stay row)) t
                 (t + parse_stay (Row.stay row)) drive_time]
      [(parse_stay (Row.stay row), ds)]
| run_more t row df drive_time ds d stops ls :
    timedelta_seconds ds = Ok d ->
    run_from (t + parse_stay (Row.stay row) + d) df stops ls ->
    run_from t (row :: df)
      (make_stop row (parse_stay (Row.stay row)) t
                 (t + parse_stay (Row.stay row)) drive_time :: stops)
      ((parse_stay (Row.stay row), ds) :: ls).




End Notions.

(** ** Sample tables and collaborators

    Over whole-number coordinates, for the examples. *)

Definition sample_row (name : string) (lat lng : Z) (stay comments : cell)
  : Row.row Z :=
  {| Row.name := Str name; Row.lat := lat; Row.lng := lng;
     Row.stay := stay; Row.comments := comments |}.

(** A collaborator out of reach: every call raises. *)
Definition failing_router : router Z :=
  fun _ _ => Raise (OtherError "timeout").

(** An answer the service gives for a drive it found. *)
Definition ok_answer (text : string) (value : json) : json :=
  JDict [("rows",
          JList [JDict [("elements",
                         JList [JDict [("status", JStr "OK");
                                       ("duration",
                                        JDict [("text", JStr text);
                                               ("value", value)])]])]])].

(** An answer whose element carries [status] and nothing else. *)
Definition status_answer (status : json) : json :=
  JDict [("rows", JList [JDict [("elements", JList [JDict [("status", status)]])]])].

Definition museum : Row.row Z := sample_row "Museum" 48 2 (Str "2:30") NaN.
Definition cafe : Row.row Z := sample_row "Cafe" 48 2 (Str "0:45") (Str "No Comments").
Definition harbour : Row.row Z := sample_row "Harbour" 43 5 NaN (Str "bring a hat").

(** ** Day labels and calendar dates *)

Section GroupNotions.

Context {coord : Type}.

(** [s] carries the day label [d]. *)
Definition has_label (d : string) (s : stop coord) : bool :=
  String.eqb (day_label s) d.

(** The stops that share a day label stand next to each other. *)
Definition same_day_consecutive (l : list (stop coord)) : Prop :=
  forall l1 a l2 b l3,
    l = (l1 ++ a :: l2 ++ b :: l3)%list ->
    day_label a = day_label b ->
    forall c, In c l2 -> day_label c = day_label a.

End GroupNotions.

(** The day label leaves the year out.  Counted from the day of the trip
    start, Thursday 2026-02-26, the first day to carry a label again is
    Thursday 2032-02-26, 2191 days on. *)
Definition first_recurrence : datetime := Datetime.make 2032 2 26 0 0.

Definition days_to_recurrence : nat := 2191.

(** The ordinals of the days from the trip start up to the first
    recurrence. *)
Definition window_days : list Z :=
  map (fun k => Datetime.toordinal TRIP_START_TIME + Z.of_nat k)
      (seq 0 days_to_recurrence).

(** No two elements of [l] are equal under [eqb]. *)
Fixpoint distinct {A : Type} (eqb : A -> A -> bool) (l : list A) : bool :=
  match l with
  | [] => true
  | x :: rest => negb (existsb (eqb x) rest) && distinct eqb rest
  end.

Definition date_eqb (a b : Z * Z * Z) : bool :=
  let '(y, m, d) := a in
  let '(y', m', d') := b in
  (y =? y') && (m =? m') && (d =? d').

(** A timestamp from the trip start up to the first recurrence of a day
    label. *)
Definition in_window (t : datetime) : Prop :=
  TRIP_START_TIME <= t < first_recurrence.

Section GroupClaims.

Context {coord : Type}.

(** Two stops stand in one day group. *)
Definition same_group (itinerary : list (stop coord)) (s s' : stop coord) : Prop :=
  exists d stops,
    In (d, stops) (group_days itinerary) /\ In s stops /\ In s' stops.

(** [s] arrives no later than [s']. *)
Definition earlier (s s' : stop coord) : Prop :=
  Stop.arrival s <= Stop.arrival s'.

End GroupClaims.

(** A stay and a drive that take no negative time. *)
Definition no_negative_time (p : timedelta * json) : Prop :=
  0 <= fst p /\ forall d, timedelta_seconds (snd p) = Ok d -> 0 <= d.

(** More sample rows: a stay of minus two hours, and a stay of 2191 days. *)
Definition back : Row.row Z := sample_row "Back" 48 2 (Str "-2:0") NaN.
Definition sabbatical : Row.row Z := sample_row "Sabbatical" 48 2 (Str "52584:0") NaN.

(** A sample run: three rows, the collaborator out of reach. *)
Definition sample_itinerary : list (stop Z) :=
  Eval vm_compute in
    itinerary (fst (loop failing_router [museum; cafe; harbour] initial)).

(** The stop the loop makes of [museum] as the only row. *)
Definition museum_stop : stop Z :=
  make_stop museum 9000 TRIP_START_TIME (TRIP_START_TIME + 9000) "-".

(** A run without the credential. *)
Definition no_key_env : env Z :=
  {| API_KEY := None;
     Client := fun _ => Ok tt;
     read_csv := Ok [museum; cafe; harbour];
     distance_matrix := failing_router |}.

(** ** Notions for the rest of the script *)

Section MoreNotions.

Context {coord : Type} `{Coord coord}.

(** The rows of the table, each with the row after it. *)
Fixpoint consecutive (df : list (Row.row coord))
  : list (Row.row coord * Row.row coord) :=
  match df with
  | row :: rest =>
      match rest with
      | next_row :: _ => (row, next_row) :: consecutive rest
      | [] => []
      end
  | [] => []
  end.

(** [(row['lat'], row['lng']) == (next_row['lat'], next_row['lng'])] *)
Definition same_coordinates (p : Row.row coord * Row.row coord) : bool :=
  coord_eq (Row.lat (fst p)) (Row.lat (snd p))
  && coord_eq (Row.lng (fst p)) (Row.lng (snd p)).

(** The call the loop makes for a pair of rows: origin, destination. *)
Definition call_of (p : Row.row coord * Row.row coord) : call coord :=
  ((Row.lat (fst p), Row.lng (fst p)), (Row.lat (snd p), Row.lng (snd p))).

(** The lines and boxes a renderer may leave out. *)
Definition txt_drive_line (s : stop coord) : string :=
  "   🚗 Drive:   " ++ Stop.drive_to_next s ++ " to next destination" ++ nl.

Definition html_drive_line (s : stop coord) : string :=
  "🚗 <b>Drive:</b> " ++ Stop.drive_to_next s ++ " to next destination<br>".

Definition txt_info_line (s : stop coord) : string :=
  "   💬 Info:    " ++ Stop.comments s ++ nl.

Definition html_comment_box (s : stop coord) : string :=
  "<div class='comment-box'>💬 <b>Info:</b> " ++ Stop.comments s ++ "</div>".

End MoreNotions.

(** The seconds [timedelta(seconds=v)] stands for; 0 when it raises. *)
Definition seconds_of (v : json) : Z :=
  match timedelta_seconds v with
  | Ok d => d
  | Raise _ => 0
  end.

(** The time one iteration takes: the stay and the drive after it. *)
Definition elapsed (p : timedelta * json) : Z := fst p + seconds_of (snd p).

Definition total (l : list Z) : Z := fold_right Z.add 0 l.

(** The distinct elements of [l], each at its first occurrence. *)
Fixpoint first_seen (l : list string) : list string :=
  match l with
  | [] => []
  | d :: rest => d :: filter (fun x => negb (String.eqb x d)) (first_seen rest)
  end.

(** How many of the writes start with [p]. *)
Definition count_starting (p : string) (writes : list string) : nat :=
  List.length (filter (String.prefix p) writes).

(** A run with the credential, a client that accepts it and a table. *)
Definition sample_env (df : list (Row.row Z)) : env Z :=
  {| API_KEY := Some "key";
     Client := fun _ => Ok tt;
     read_csv := Ok df;
     distance_matrix := failing_router |}.

(** A collaborator that finds every drive: 30 minutes. *)
Definition half_hour_router : router Z :=
  fun _ _ => Ok (ok_answer "30 mins" (JInt 1800)).

(** * The embedding at work

    Readings of the Python primitives and of the script's helpers on
    concrete values. *)

Example int_of_str_readings :
  map int_of_str [" 5 "; "+5"; "-5"; "007"; "1_0"; "_1"; "1__0"; "1_"; "0x10"; "+ 5"; "-"; ""]
  = [Ok 5; Ok 5; Ok (-5); Ok 7; Ok 10; Raise ValueError; Raise ValueError;
     Raise ValueError; Raise ValueError; Raise ValueError; Raise ValueError;
     Raise ValueError].
Proof. reflexivity. Qed.

Example split_readings :
  (split ":" "2:30", split ":" "bad", split ":" "1:2:3", split ":" "", split ":" "1:")
  = (["2"; "30"], ["bad"], ["1"; "2"; "3"], [""], ["1"; ""]).
Proof. reflexivity. Qed.

Example str_readings :
  (str_of_int 0, str_of_int (-120), lower "No Comments", upper "Friday, March 06",
   strip "  bring a hat ", replace "mins" "min" (replace "hours" "hrs" "2 hours 5 mins"))
  = ("0", "-120", "no comments", "FRIDAY, MARCH 06", "bring a hat", "2 hrs 5 min").
Proof. reflexivity. Qed.

Example trip_start_reading :
  (Datetime.calendar_date TRIP_START_TIME, Datetime.hour TRIP_START_TIME,
   Datetime.minute TRIP_START_TIME, Datetime.strftime_day TRIP_START_TIME,
   Datetime.strftime_clock TRIP_START_TIME)
  = ((2026, 2, 26), 22, 0, "Thursday, February 26", "10:00 PM").
Proof. vm_compute. reflexivity. Qed.

Example calendar_readings :
  (Datetime.ord2ymd 1, Datetime.ord2ymd 730179, Datetime.ord2ymd 730180,
   Datetime.ord2ymd Datetime.max_ordinal, Datetime.ymd2ord 2026 2 26)
  = ((1, 1, 1), (2000, 2, 29), (2000, 3, 1), (9999, 12, 31), 739673).
Proof. vm_compute. reflexivity. Qed.

Example clock_readings :
  map Datetime.strftime_clock
      [Datetime.make 2026 2 27 0 5; Datetime.make 2026 2 27 12 5;
       Datetime.make 2026 2 27 9 30; Datetime.make 2026 2 27 23 59]
  = ["12:05 AM"; "12:05 PM"; "9:30 AM"; "11:59 PM"].
Proof. vm_compute. reflexivity. Qed.

Example timedelta_range_readings :
  (Timedelta.make 23999999999 59, Timedelta.make 24000000000 0,
   Timedelta.make (-23999999976) 0, Timedelta.make (-23999999977) 0)
  = (Ok 86399999999940, Raise OverflowError, Ok (-86399999913600), Raise OverflowError).
Proof. vm_compute. reflexivity. Qed.

Example format_stay_string_readings :
  (format_stay_string 5400, format_stay_string 0, format_stay_string (-5400))
  = ("1 hour(s) 30 minutes", "0 hour(s) 0 minutes", "-2 hour(s) 30 minutes").
Proof. vm_compute. reflexivity. Qed.

(** Stop A stays one hour and the drive to B takes 1800 seconds; B stays 45
    minutes. *)
Example timestamp_chaining :
  map (fun s => (Stop.arrival s - TRIP_START_TIME, Stop.departure s - TRIP_START_TIME,
                 Stop.drive_to_next s))
      (itinerary
         (fst (loop (fun _ _ => Ok (ok_answer "30 mins" (JInt 1800)))
                    [sample_row "A" 1 1 (Str "1:0") NaN;
                     sample_row "B" 2 2 (Str "0:45") NaN]
                    initial)))
  = [(0, 3600, "30 min"); (3600 + 1800, 3600 + 1800 + 2700, "-")].
Proof. vm_compute. reflexivity. Qed.

(** Stops on both sides of midnight land in two day groups, in visit
    order. *)
Example midnight_grouping :
  map (fun day => (fst day, map Stop.name (snd day))) (group_days sample_itinerary)
  = [("Thursday, February 26", [Str "Museum"]);
     ("Friday, February 27", [Str "Cafe"; Str "Harbour"])].
Proof. vm_compute. reflexivity. Qed.

(** Without the input file [main] reports it and writes nothing. *)
Example missing_input_file :
  main {| API_KEY := Some "key"; Client := fun _ => Ok tt;
          read_csv := Raise FileNotFoundError;
          distance_matrix := failing_router |}
  = {| printed := [ "❌ Error: trip-destinations.csv not found." ];
       files := []; uncaught := None |}.
Proof. reflexivity. Qed.

(** * Facts about the Python values *)

Section PyFacts.

Lemma append_assoc (a b c : string) : (a ++ b) ++ c = a ++ (b ++ c).
Proof. induction a as [|x a IH]; simpl; [reflexivity | now rewrite IH]. Qed.

Lemma append_empty_r (a : string) : a ++ "" = a.
Proof. induction a as [|x a IH]; simpl; [reflexivity | now rewrite IH]. Qed.

Lemma length_append (a b : string) :
  String.length (a ++ b) = (String.length a + String.length b)%nat.
Proof. induction a as [|x a IH]; simpl; [reflexivity | now rewrite IH]. Qed.

Lemma every_append p a b : every p (a ++ b) = every p a && every p b.
Proof.
  induction a as [|x a IH]; simpl; [reflexivity|].
  now rewrite IH, andb_assoc.
Qed.

Lemma every_weaken (p q : ascii -> bool) s :
  (forall c, p c = true -> q c = true) -> every p s = true -> every q s = true.
Proof.
  intros Hpq. induction s as [|x s IH]; simpl; [reflexivity|].
  intros [Hx Hs]%andb_prop. now rewrite (Hpq _ Hx), IH.
Qed.

(** *** Decimal digits *)

Lemma code_digit_char d : (d < 10)%N -> code (digit_char d) = (48 + d)%N.
Proof.
  intros Hd. unfold code, digit_char. apply N_ascii_embedding. lia.
Qed.

Lemma is_digit_digit_char d : (d < 10)%N -> is_digit (digit_char d) = true.
Proof.
  intros Hd. unfold is_digit. rewrite (code_digit_char d Hd).
  apply andb_true_intro; split; apply N.leb_le; lia.
Qed.

Lemma digit_val_digit_char d : (d < 10)%N -> digit_val (digit_char d) = d.
Proof.
  intros Hd. unfold digit_val. rewrite (code_digit_char d Hd). lia.
Qed.

Lemma digits_from_acc fuel : forall n acc,
  digits_from fuel n acc = digits_from fuel n "" ++ acc.
Proof.
  induction fuel as [|f IH]; intros n acc; simpl; [reflexivity|].
  destruct (n <? 10)%N; [reflexivity|].
  rewrite (IH _ (String _ acc)), (IH _ (String _ "")), append_assoc.
  reflexivity.
Qed.

Lemma digits_from_step f n :
  digits_from (S f) n "" =
  if (n <? 10)%N then String (digit_char (n mod 10)) ""
  else digits_from f (n / 10) "" ++ String (digit_char (n mod 10)) "".
Proof. simpl. destruct (n <? 10)%N; [reflexivity | apply digits_from_acc]. Qed.

Lemma digits_from_every fuel : forall n,
  every is_digit (digits_from fuel n "") = true.
Proof.
  induction fuel as [|f IH]; intros n; [reflexivity|].
  rewrite digits_from_step.
  assert (Hd : is_digit (digit_char (n mod 10)) = true).
  { apply is_digit_digit_char. apply N.mod_lt. lia. }
  destruct (n <? 10)%N; simpl.
  - now rewrite Hd.
  - rewrite every_append, IH. simpl. now rewrite Hd.
Qed.

Lemma digits_from_nonempty f n : digits_from (S f) n "" <> "".
Proof.
  rewrite digits_from_step. destruct (n <? 10)%N; [discriminate|].
  destruct (digits_from f (n / 10) ""); discriminate.
Qed.

Lemma digits_value_append a b acc :
  digits_value (a ++ b) acc = digits_value b (digits_value a acc).
Proof. revert acc. induction a as [|x a IH]; intros acc; simpl; [reflexivity | apply IH]. Qed.

(** With enough fuel the digits written denote the number. *)
Lemma digits_value_digits_from fuel : forall n,
  (n < 10 ^ N.of_nat fuel)%N ->
  digits_value (digits_from fuel n "") 0 = n.
Proof.
  induction fuel as [|f IH]; intros n Hn.
  - simpl in *. lia.
  - rewrite digits_from_step.
    destruct (N.ltb_spec n 10) as [Hlt|Hge].
    + cbn [digits_value]. rewrite digit_val_digit_char by (apply N.mod_lt; lia).
      rewrite N.mod_small by exact Hlt. lia.
    + rewrite digits_value_append. cbn [digits_value].
      rewrite digit_val_digit_char by (apply N.mod_lt; lia).
      rewrite IH.
      * pose proof (N.div_mod n 10 ltac:(lia)). lia.
      * rewrite Nnat.Nat2N.inj_succ, N.pow_succ_r' in Hn.
        apply N.Div0.div_lt_upper_bound. exact Hn.
Qed.

Lemma pos_size_bound p : (N.pos p < 2 ^ N.of_nat (Pos.size_nat p))%N.
Proof.
  induction p as [p IH|p IH|]; cbn [Pos.size_nat];
    rewrite Nnat.Nat2N.inj_succ, N.pow_succ_r'.
  - change (N.pos p~1) with (2 * N.pos p + 1)%N. lia.
  - change (N.pos p~0) with (2 * N.pos p)%N. lia.
  - reflexivity.
Qed.

Lemma fuel_enough n : (n < 10 ^ N.of_nat (S (N.size_nat n)))%N.
Proof.
  rewrite Nnat.Nat2N.inj_succ, N.pow_succ_r'.
  destruct n as [|p]; simpl N.size_nat.
  - simpl. lia.
  - pose proof (pos_size_bound p) as Hp.
    assert (2 ^ N.of_nat (Pos.size_nat p) <= 10 ^ N.of_nat (Pos.size_nat p))%N
      by (apply N.pow_le_mono_l; lia).
    lia.
Qed.

Lemma str_of_N_digits n : every is_digit (str_of_N n) = true.
Proof. apply digits_from_every. Qed.

Lemma str_of_N_nonempty n : str_of_N n <> "".
Proof. apply digits_from_nonempty. Qed.

Lemma str_of_N_value n : digits_value (str_of_N n) 0 = n.
Proof. apply digits_value_digits_from, fuel_enough. Qed.

(** *** Reading an integer literal *)

Lemma scan_digits_all s : forall acc nd sep,
  every is_digit s = true -> s <> "" ->
  scan_digits s acc nd sep =
  Some (digits_value s acc, (nd + String.length s)%nat, "").
Proof.
  induction s as [|c s IH]; intros acc nd sep Hall Hne; [contradiction|].
  simpl in Hall. apply andb_prop in Hall as [Hc Hs].
  simpl. rewrite Hc.
  destruct s as [|c' s'].
  - simpl. f_equal. f_equal. f_equal. lia.
  - rewrite IH by (assumption || discriminate).
    f_equal. f_equal. f_equal. simpl. lia.
Qed.

Lemma is_digit_not_space c : is_digit c = true -> is_space c = false.
Proof.
  unfold is_digit, is_space. intros [H1 H2]%andb_prop.
  apply N.leb_le in H1. apply N.leb_le in H2.
  apply orb_false_intro.
  - apply andb_false_intro2. apply N.leb_gt. lia.
  - apply N.eqb_neq. lia.
Qed.

Lemma is_digit_code c : is_digit c = true -> (48 <= code c <= 57)%N.
Proof.
  unfold is_digit. intros [H1 H2]%andb_prop.
  apply N.leb_le in H1. apply N.leb_le in H2. lia.
Qed.

Lemma is_digit_neq c x :
  is_digit c = true -> (code x < 48 \/ 57 < code x)%N -> Ascii.eqb c x = false.
Proof.
  intros Hc Hx. apply Ascii.eqb_neq. intros ->. apply is_digit_code in Hc. lia.
Qed.

(** [int()] reads back the digits of a natural number within the limit. *)
Lemma int_of_str_str_of_N n :
  (String.length (str_of_N n) <= int_max_str_digits)%nat ->
  int_of_str (str_of_N n) = Ok (Z.of_N n).
Proof.
  intros Hlen. unfold int_of_str.
  pose proof (str_of_N_digits n) as Hall.
  pose proof (str_of_N_nonempty n) as Hne.
  pose proof (str_of_N_value n) as Hval.
  destruct (str_of_N n) as [|c s] eqn:E; [contradiction|].
  simpl in Hall. apply andb_prop in Hall as [Hc Hs].
  cbn [skip_spaces]. rewrite (is_digit_not_space c Hc).
  assert (Hm : Ascii.eqb c "-" = false) by (apply is_digit_neq; [assumption | vm_compute; left; reflexivity]).
  assert (Hp : Ascii.eqb c "+" = false) by (apply is_digit_neq; [assumption | vm_compute; left; reflexivity]).
  rewrite Hm, Hp.
  rewrite scan_digits_all
    by first [discriminate | simpl; now rewrite Hc, Hs].
  cbn [skip_spaces].
  apply Nat.ltb_ge in Hlen. rewrite Nat.add_0_l, Hlen, Hval. reflexivity.
Qed.

Lemma int_of_str_str_of_int_limit z :
  int_of_str (str_of_int z) =
  if Nat.ltb int_max_str_digits (digit_count z) then Raise ValueError else Ok z.
Proof.
  unfold digit_count.
  assert (Hnat : forall n,
    int_of_str (str_of_N n) =
    if Nat.ltb int_max_str_digits (String.length (str_of_N n))
    then Raise ValueError else Ok (Z.of_N n)).
  { intros n. destruct (Nat.ltb_spec int_max_str_digits (String.length (str_of_N n)))
      as [Hgt|Hle]; [|now apply int_of_str_str_of_N].
    unfold int_of_str.
    pose proof (str_of_N_digits n) as Hall.
    pose proof (str_of_N_nonempty n) as Hne.
    destruct (str_of_N n) as [|c s] eqn:E; [contradiction|].
    simpl in Hall. apply andb_prop in Hall as [Hc Hs].
    cbn [skip_spaces]. rewrite (is_digit_not_space c Hc).
    rewrite (is_digit_neq c "-" Hc) by (vm_compute; left; reflexivity).
    rewrite (is_digit_neq c "+" Hc) by (vm_compute; left; reflexivity).
    rewrite scan_digits_all
      by first [discriminate | simpl; now rewrite Hc, Hs].
    cbn [skip_spaces]. apply Nat.ltb_lt in Hgt.
    now rewrite Nat.add_0_l, Hgt. }
  destruct z as [|p|p]; simpl str_of_int.
  - apply (Hnat 0%N).
  - apply (Hnat (N.pos p)).
  - change (Z.abs_N (Z.neg p)) with (N.pos p).
    pose proof (str_of_N_digits (N.pos p)) as Hall.
    pose proof (str_of_N_nonempty (N.pos p)) as Hne.
    pose proof (str_of_N_value (N.pos p)) as Hval.
    unfold int_of_str. cbn [skip_spaces].
    change (is_space "-") with false. cbv iota.
    change (Ascii.eqb "-" "-") with true. cbv iota.
    rewrite scan_digits_all by assumption.
    cbn [skip_spaces]. rewrite Nat.add_0_l, Hval.
    destruct (Nat.ltb _ _); reflexivity.
Qed.

Lemma int_of_str_str_of_int z :
  (digit_count z <= int_max_str_digits)%nat ->
  int_of_str (str_of_int z) = Ok z.
Proof.
  intros Hlen. rewrite int_of_str_str_of_int_limit.
  apply Nat.ltb_ge in Hlen. now rewrite Hlen.
Qed.



(** *** Splitting at a character *)

Lemma split_whole sep s : has_char sep s = false -> split sep s = [s].
Proof.
  unfold has_char. induction s as [|x s IH]; simpl; [reflexivity|].
  intros Hs. apply negb_false_iff in Hs. apply andb_prop in Hs as [Hx Hs'].
  apply negb_true_iff in Hx. rewrite Hx, IH; [reflexivity|].
  now rewrite Hs'.
Qed.

Lemma split_at sep a b :
  has_char sep a = false -> split sep (a ++ String sep b) = a :: split sep b.
Proof.
  unfold has_char. induction a as [|x a IH]; simpl.
  - intros _. now rewrite Ascii.eqb_refl.
  - intros Hs. apply negb_false_iff in Hs. apply andb_prop in Hs as [Hx Hs'].
    apply negb_true_iff in Hx. rewrite Hx, IH; [reflexivity|].
    now rewrite Hs'.
Qed.

Lemma split_nonempty sep s : split sep s <> [].
Proof.
  destruct s as [|x s]; simpl; [discriminate|].
  destruct (Ascii.eqb x sep); [discriminate|].
  destruct (split sep s); discriminate.
Qed.

Lemma split_length_has_char sep s :
  has_char sep s = true -> (2 <= List.length (split sep s))%nat.
Proof.
  unfold has_char. induction s as [|x s IH]; simpl; [discriminate|].
  pose proof (split_nonempty sep s) as Hne.
  destruct (Ascii.eqb x sep) eqn:Ex; simpl.
  - intros _. destruct (split sep s); [contradiction | simpl; lia].
  - intros Hs. specialize (IH Hs).
    destruct (split sep s) as [|q qs]; simpl in *; lia.
Qed.

Lemma str_of_int_chars z :
  every (fun c => is_digit c || Ascii.eqb c "-") (str_of_int z) = true.
Proof.
  assert (Hn : forall n,
    every (fun c => is_digit c || Ascii.eqb c "-") (str_of_N n) = true).
  { intros n. apply (every_weaken is_digit); [|apply str_of_N_digits].
    intros c ->. reflexivity. }
  destruct z as [|p|p]; [apply Hn | apply Hn |].
  cbn [str_of_int every]. rewrite Hn. reflexivity.
Qed.

Lemma str_of_int_no_colon z : has_char ":" (str_of_int z) = false.
Proof.
  unfold has_char. apply negb_false_iff.
  apply (every_weaken (fun c => is_digit c || Ascii.eqb c "-"));
    [|apply str_of_int_chars].
  intros c [Hd|Hm]%orb_prop.
  - apply negb_true_iff, is_digit_neq; [assumption|]. vm_compute. right. reflexivity.
  - apply Ascii.eqb_eq in Hm. subst c. reflexivity.
Qed.

Lemma str_of_int_nonempty z : str_of_int z <> "".
Proof. destruct z; simpl; try apply str_of_N_nonempty. discriminate. Qed.

Lemma split_stay_text h m :
  split ":" (stay_text h m) = [str_of_int h; str_of_int m].
Proof.
  unfold stay_text. change (":" ++ str_of_int m) with (String ":" (str_of_int m)).
  rewrite split_at by apply str_of_int_no_colon.
  now rewrite split_whole by apply str_of_int_no_colon.
Qed.


End PyFacts.

(** * The stay parser *)

Section ParseStay.

Lemma timedelta_make_value h m td :
  Timedelta.make h m = Ok td -> td = h * 3600 + m * 60.
Proof.
  unfold Timedelta.make, Timedelta.of_seconds.
  destruct (Timedelta.in_range _); [now intros [= <-] | discriminate].
Qed.

Lemma stay_text_nonempty h m : String.eqb (stay_text h m) "" = false.
Proof.
  apply String.eqb_neq. unfold stay_text.
  pose proof (str_of_int_nonempty h).
  destruct (str_of_int h); [contradiction | discriminate].
Qed.

(** What the parser makes of the text "H:M". *)
Lemma parse_stay_stay_text h m :
  parse_stay (Str (stay_text h m)) =
  if Nat.ltb int_max_str_digits (digit_count h)
     || Nat.ltb int_max_str_digits (digit_count m)
     || negb (Timedelta.in_range (h * 3600 + m * 60))
  then Timedelta.one_hour
  else h * 3600 + m * 60.
Proof.
  unfold parse_stay. cbn [isna cell_is_empty cell_str orb].
  rewrite stay_text_nonempty, split_stay_text. cbn [unpack_hm].
  rewrite !int_of_str_str_of_int_limit.
  destruct (Nat.ltb _ (digit_count h)); [reflexivity|].
  destruct (Nat.ltb _ (digit_count m)); [reflexivity|].
  cbn [bind fst snd orb]. unfold Timedelta.make, Timedelta.of_seconds.
  destruct (Timedelta.in_range _); reflexivity.
Qed.



End ParseStay.





(** * The loop over the rows *)

Section LoopFacts.

Context {coord : Type} `{Coord coord} `{Repr}.

Lemma datetime_add_value t td r : Datetime.add t td = Ok r -> r = t + td.
Proof.
  unfold Datetime.add. destruct (Datetime.in_range _); [now intros [= <-] | discriminate].
Qed.

Lemma datetime_add_in_range t td r :
  Datetime.add t td = Ok r -> Datetime.in_range r = true.
Proof.
  unfold Datetime.add. destruct (Datetime.in_range _) eqn:E; [|discriminate].
  now intros [= <-].
Qed.


(** What one iteration does, case by case. *)
Lemma iteration_cases (gmaps : router coord) row next (st : state coord) :
  let stay_td := parse_stay (Row.stay row) in
  let leg :=
    match next with
    | Some next_row => drive_to_next_row gmaps (calls st) row next_row
    | None => (("-", JInt 0), calls st)
    end in
  let s := make_stop row stay_td (current_time st)
                     (current_time st + stay_td) (fst (fst leg)) in
  let appended t :=
    {| current_time := t;
       itinerary := (itinerary st ++ [s])%list;
       calls := snd leg;
       locals := (locals st ++ [(stay_td, snd (fst leg))])%list |} in
  (Datetime.in_range (current_time st + stay_td) = false
   /\ iteration gmaps row next st = (st, Some OverflowError))
  \/ (Datetime.in_range (current_time st + stay_td) = true
      /\ exists e,
          (td <- timedelta_seconds (snd (fst leg));;
           Datetime.add (current_time st + stay_td) td) = Raise e
          /\ iteration gmaps row next st = (appended (current_time st), Some e))
  \/ (Datetime.in_range (current_time st + stay_td) = true
      /\ exists d,
          timedelta_seconds (snd (fst leg)) = Ok d
          /\ Datetime.in_range (current_time st + stay_td + d) = true
          /\ iteration gmaps row next st
             = (appended (current_time st + stay_td + d), None)).
Proof.
  intros stay_td leg s appended. subst s appended.
  unfold iteration, Datetime.add.
  fold stay_td. fold leg. clearbody leg.
  destruct leg as [[drive_time drive_seconds] calls']. cbn [fst snd].
  destruct (Datetime.in_range (current_time st + stay_td)) eqn:Efit;
    [right | left; auto].
  destruct (timedelta_seconds drive_seconds) as [d|e] eqn:Etd; cbn [bind].
  - destruct (Datetime.in_range (current_time st + stay_td + d)) eqn:Efit2.
    + right. split; [reflexivity|]. exists d. repeat split. assumption.
    + left. split; [reflexivity|]. exists OverflowError. split; reflexivity.
  - left. split; [reflexivity|]. exists e. split; reflexivity.
Qed.

(** The loop appends what [run_from] describes; when it ends without an
    exception it has appended one stop for every row. *)
Lemma loop_run (gmaps : router coord) df : forall (st st' : state coord) r,
  loop gmaps df st = (st', r) ->
  exists stops ls,
    itinerary st' = (itinerary st ++ stops)%list
    /\ locals st' = (locals st ++ ls)%list
    /\ run_from (current_time st) df stops ls
    /\ (r = None -> List.length stops = List.length df).
Proof.
  induction df as [|row rest IH]; intros st st' r Hloop.
  - cbn in Hloop. injection Hloop as <- <-. exists [], [].
    rewrite !app_nil_r. repeat split; constructor.
  - cbn [loop] in Hloop.
    destruct (iteration_cases gmaps row (hd_error rest) st)
      as [[_ E] | [[_ (e & _ & E)] | [_ (d & Hd & _ & E)]]];
      rewrite E in Hloop.
    + injection Hloop as <- <-. exists [], [].
      rewrite !app_nil_r. repeat split; try constructor. discriminate.
    + injection Hloop as <- <-. eexists [_], [_].
      cbn [itinerary locals]. repeat split; try constructor. discriminate.
    + apply IH in Hloop as (stops & ls & Hit & Hloc & Hrun & Hlen).
      cbn [itinerary locals current_time] in Hit, Hloc, Hrun.
      eexists (_ :: stops), (_ :: ls).
      rewrite Hit, Hloc, <- !app_assoc. cbn [app].
      repeat split.
      * econstructor; eassumption.
      * intros Hr. cbn [List.length]. now rewrite (Hlen Hr).
Qed.

Lemma run_from_lengths t df stops ls :
  run_from t df stops ls -> List.length ls = List.length stops.
Proof. induction 1; cbn; congruence. Qed.

Lemma run_from_first t df stops ls s :
  run_from t df stops ls -> nth_error stops 0 = Some s -> Stop.arrival s = t.
Proof. destruct 1; cbn; intros [= <-]; reflexivity. Qed.

(** The stop at index [i] was made from the row at index [i]. *)
Lemma run_from_stop t df stops ls :
  run_from t df stops ls ->
  forall i s, nth_error stops i = Some s ->
  exists row ds drive_time,
    nth_error df i = Some row
    /\ nth_error ls i = Some (parse_stay (Row.stay row), ds)
    /\ s = make_stop row (parse_stay (Row.stay row)) (Stop.arrival s)
                     (Stop.arrival s + parse_stay (Row.stay row)) drive_time.
Proof.
  induction 1 as [t df | t row df drive_time ds
                  | t row df drive_time ds d stops ls Hd Hrun IH];
    intros i s Hs.
  - destruct i; discriminate.
  - destruct i as [|[|i]]; try discriminate.
    injection Hs as <-. exists row, ds, drive_time. repeat split.
  - destruct i as [|i].
    + injection Hs as <-. exists row, ds, drive_time. repeat split.
    + cbn [nth_error] in *. apply (IH i s Hs).
Qed.

(** From the departure of a stop to the arrival of the next one. *)
Lemma run_from_next t df stops ls :
  run_from t df stops ls ->
  forall i s s', nth_error stops i = Some s -> nth_error stops (S i) = Some s' ->
  exists stay ds d,
    nth_error ls i = Some (stay, ds)
    /\ timedelta_seconds ds = Ok d
    /\ Stop.arrival s' = Stop.departure s + d.
Proof.
  induction 1 as [t df | t row df drive_time ds
                  | t row df drive_time ds d stops ls Hd Hrun IH];
    intros i s s' Hs Hs'.
  - destruct i; discriminate.
  - destruct i as [|[|i]]; discriminate.
  - destruct i as [|i].
    + injection Hs as <-. cbn [nth_error] in Hs'.
      exists (parse_stay (Row.stay row)), ds, d. repeat split; [assumption|].
      cbn [make_stop Stop.departure]. apply (run_from_first _ _ _ _ _ Hrun Hs').
    + cbn [nth_error] in *. apply (IH i s s' Hs Hs').
Qed.

End LoopFacts.

(** C1.  In the itinerary the loop builds, for every table and every routing
    collaborator, whether the loop ran to its end or an exception cut it
    short: the first stop arrives at the trip start time; every later stop
    arrives at the departure of the stop before it plus the driving seconds
    found for that stop; every stop departs at its arrival plus the stay
    parsed from its row. *)
Theorem itinerary_timestamps {coord : Type} `{Coord coord} `{Repr}
    (gmaps : router coord) (df : list (Row.row coord)) :
  let st := fst (loop gmaps df initial) in
  (forall s, nth_error (itinerary st) 0 = Some s ->
             Stop.arrival s = TRIP_START_TIME)
  /\ (forall i s s',
        nth_error (itinerary st) i = Some s ->
        nth_error (itinerary st) (S i) = Some s' ->
        exists stay_td drive_seconds d,
          nth_error (locals st) i = Some (stay_td, drive_seconds)
          /\ timedelta_seconds drive_seconds = Ok d
          /\ Stop.arrival s' = Stop.departure s + d)
  /\ (forall i s,
        nth_error (itinerary st) i = Some s ->
        exists row drive_seconds,
          nth_error df i = Some row
          /\ nth_error (locals st) i = Some (parse_stay (Row.stay row), drive_seconds)
          /\ Stop.departure s = Stop.arrival s + parse_stay (Row.stay row))
  /\ (snd (loop gmaps df initial) = None ->
      List.length (itinerary st) = List.length df).
Proof.
  intros st. subst st.
  destruct (loop gmaps df initial) as [st r] eqn:E.
  apply loop_run in E as (stops & ls & Hit & Hloc & Hrun & Hlen).
  cbn [fst snd initial itinerary locals current_time app] in *.
  rewrite Hit, Hloc. repeat split.
  - intros s. apply (run_from_first _ _ _ _ _ Hrun).
  - apply (run_from_next _ _ _ _ Hrun).
  - intros i s Hs.
    destruct (run_from_stop _ _ _ _ Hrun i s Hs) as (row & ds & dt & Hrow & Hl & Hmk).
    exists row, ds. repeat split; try assumption.
    rewrite Hmk at 1. reflexivity.
  - exact Hlen.
Qed.

(** * The route enricher *)

Section Enricher.

Context {coord : Type} `{Coord coord} `{Repr}.






End Enricher.

(** C4.  When the latitude and the longitude of a row equal those of the
    next row, the drive between them is worked out without the routing
    collaborator: the list of calls stays as it was, whichever collaborator
    is at hand the iteration comes out the same, and the result is 0 driving
    seconds under the label "0 min (Same location)". *)
Theorem same_location_shortcut {coord : Type} `{Coord coord} `{Repr}
    (gmaps : router coord) (log : list (call coord))
    (row next_row : Row.row coord) :
  coord_eq (Row.lat row) (Row.lat next_row) = true ->
  coord_eq (Row.lng row) (Row.lng next_row) = true ->
  drive_to_next_row gmaps log row next_row
  = (("0 min (Same location)", JInt 0), log)
  /\ (forall (st : state coord) (gmaps' : router coord),
        iteration gmaps row (Some next_row) st
        = iteration gmaps' row (Some next_row) st)
  /\ (forall st : state coord,
        calls (fst (iteration gmaps row (Some next_row) st)) = calls st).
Proof.
  intros Hlat Hlng.
  assert (Hleg : forall g l,
    drive_to_next_row g l row next_row = (("0 min (Same location)", JInt 0), l)).
  { intros g l. unfold drive_to_next_row. now rewrite Hlat, Hlng. }
  split; [apply Hleg | split].
  - intros st gmaps'. unfold iteration. now rewrite !Hleg.
  - intros st. unfold iteration. rewrite Hleg.
    destruct (Datetime.add _ _); [|reflexivity].
    destruct (bind _ _); reflexivity.
Qed.

Lemma same_location_shortcut_witness :
  drive_to_next_row failing_router [] museum cafe
  = (("0 min (Same location)", JInt 0), [])
  /\ (forall (st : state Z) (gmaps' : router Z),
        iteration failing_router museum (Some cafe) st
        = iteration gmaps' museum (Some cafe) st)
  /\ (forall st : state Z,
        calls (fst (iteration failing_router museum (Some cafe) st)) = calls st).
Proof.
  apply (same_location_shortcut failing_router [] museum cafe); reflexivity.
Defined.



(** An answer that reads as a found drive but whose value is no number is not
    among the failures the [try] catches: building the duration raises
    [TypeError] after the stop was appended, and the loop ends there. *)
Lemma answer_without_number_ends_loop :
  loop (fun _ _ => Ok (ok_answer "5 mins" JNull)) [museum; harbour] initial
  = ({| current_time := TRIP_START_TIME;
        itinerary :=
          [make_stop museum 9000 TRIP_START_TIME (TRIP_START_TIME + 9000) "5 min"];
        calls := [((48, 2), (43, 5))];
        locals := [(9000, JNull)] |}, Some TypeError).
Proof. vm_compute. reflexivity. Qed.

(** The fallbacks at work: a status the service sends for a place it cannot
    reach, and a collaborator out of reach. *)
Lemma fallback_examples :
  drive_to_next_row (fun _ _ => Ok (status_answer (JStr "ZERO_RESULTS")))
    [] museum harbour
  = (("0 min (ZERO_RESULTS)", JInt 0), [((48, 2), (43, 5))])
  /\ drive_to_next_row failing_router [] museum harbour
     = (("0 min (API Error)", JInt 0), [((48, 2), (43, 5))])
  /\ drive_to_next_row (fun _ _ => Ok (ok_answer "1 hours 5 mins" (JInt 3900)))
       [] museum harbour
     = (("1 hrs 5 min", JInt 3900), [((48, 2), (43, 5))]).
Proof. repeat split. Qed.

(** * Grouping by day *)

Section Grouping.

Context {coord : Type}.

Local Open Scope list_scope.

Implicit Types (l : list (stop coord)) (days : days_t coord) (s : stop coord).

Ltac list_eq :=
  repeat (first [rewrite <- app_assoc | progress cbn [app]]); reflexivity.

Lemma group_days_snoc l s :
  group_days (l ++ [s]) = days_append (day_label s) s (group_days l).
Proof. unfold group_days. now rewrite fold_left_app. Qed.

Lemma days_append_new d s days :
  ~ In d (map fst days) -> days_append d s days = (days ++ [(d, [s])])%list.
Proof.
  induction days as [|[d' stops] rest IH]; intros Hd; [reflexivity|].
  cbn [days_append]. destruct (String.eqb_spec d d') as [->|Hne].
  - exfalso. apply Hd. now left.
  - rewrite IH; [reflexivity|]. intros Hin. apply Hd. now right.
Qed.

Lemma days_append_old d s days1 stops days2 :
  ~ In d (map fst days1) ->
  days_append d s (days1 ++ (d, stops) :: days2)
  = (days1 ++ (d, (stops ++ [s])%list) :: days2)%list.
Proof.
  induction days1 as [|[d' st'] rest IH]; intros Hd; cbn [app days_append].
  - now rewrite String.eqb_refl.
  - destruct (String.eqb_spec d d') as [->|Hne].
    + exfalso. apply Hd. now left.
    + rewrite IH; [reflexivity|]. intros Hin. apply Hd. now right.
Qed.

(** The entry of a key, with the entries before it, which lack the key. *)
Lemma first_entry d days :
  In d (map fst days) ->
  exists days1 stops days2,
    days = (days1 ++ (d, stops) :: days2)%list /\ ~ In d (map fst days1).
Proof.
  induction days as [|[d' st'] rest IH]; intros Hin; [contradiction|].
  destruct (String.eqb_spec d d') as [->|Hne].
  - exists [], st', rest. split; [reflexivity | intros []].
  - destruct Hin as [Heq|Hin]; [cbn in Heq; congruence|].
    destruct (IH Hin) as (days1 & stops & days2 & -> & Hnot).
    exists ((d', st') :: days1), stops, days2. split; [reflexivity|].
    cbn. intros [Heq|Hin']; [congruence | contradiction].
Qed.

Lemma has_label_filter_snoc d l s :
  filter (has_label d) (l ++ [s])
  = (filter (has_label d) l ++ (if has_label d s then [s] else []))%list.
Proof. now rewrite filter_app. Qed.

(** What the groups are, for every itinerary: one group for every day label
    that occurs, and in it the stops of that label in itinerary order. *)
Lemma group_days_invariant l :
  NoDup (map fst (group_days l))
  /\ (forall d, In d (map fst (group_days l)) <->
                exists s, In s l /\ day_label s = d)
  /\ (forall d stops, In (d, stops) (group_days l) ->
                      stops = filter (has_label d) l).
Proof.
  induction l as [|x l (Hnd & Hkeys & Hfil)] using rev_ind.
  - cbn. split; [constructor | split].
    + intros d. split; [intros [] | intros (s & [] & _)].
    + intros d stops [].
  - rewrite group_days_snoc. set (d := day_label x).
    assert (Hother : forall d', d' <> d ->
              filter (has_label d') (l ++ [x]) = filter (has_label d') l).
    { intros d' Hne. rewrite has_label_filter_snoc. unfold has_label at 2.
      fold d. destruct (String.eqb_spec d d'); [congruence | apply app_nil_r]. }
    assert (Hsame : filter (has_label d) (l ++ [x])
                    = (filter (has_label d) l ++ [x])%list).
    { rewrite has_label_filter_snoc. unfold has_label at 2. fold d.
      now rewrite String.eqb_refl. }
    assert (Hlabels : forall d',
              (exists s, In s (l ++ [x]) /\ day_label s = d') <->
              d' = d \/ In d' (map fst (group_days l))).
    { intros d'. rewrite Hkeys. split.
      - intros (s & [Hs|[<-|[]]]%in_app_or & Hd); [right; eauto | left; now subst d].
      - intros [->|(s & Hs & Hd)].
        + exists x. split; [apply in_or_app; right; now left | reflexivity].
        + exists s. split; [apply in_or_app; now left | assumption]. }
    destruct (in_dec string_dec d (map fst (group_days l))) as [Hin|Hnot].
    + destruct (first_entry d _ Hin) as (days1 & stops & days2 & E & Hnot1).
      rewrite E in *. rewrite days_append_old by assumption.
      assert (Hmap : forall st, map fst (days1 ++ (d, st) :: days2)
                                = (map fst days1 ++ d :: map fst days2)%list).
      { intros st. now rewrite map_app. }
      rewrite Hmap in *. split; [assumption | split].
      * intros d'. rewrite Hlabels. split; [now right | intros [->|]; [|assumption]].
        apply in_or_app. right. now left.
      * intros d' st' [Hst|[Hst|Hst]]%in_app_or.
        -- assert (d' <> d).
           { intros ->. apply Hnot1. change d with (fst (d, st')). now apply in_map. }
           rewrite Hother by assumption. apply Hfil.
           apply in_or_app. now left.
        -- injection Hst as <- <-. rewrite Hsame. f_equal.
           apply Hfil. apply in_or_app. right. now left.
        -- assert (d' <> d).
           { intros ->. apply NoDup_remove_2 in Hnd. apply Hnd.
             apply in_or_app. right. change d with (fst (d, st')). now apply in_map. }
           rewrite Hother by assumption. apply Hfil.
           apply in_or_app. right. now right.
    + rewrite days_append_new by assumption.
      rewrite map_app. cbn [map fst]. split; [|split].
      * apply NoDup_app; [assumption | repeat constructor; intros [] | ].
        intros a Ha [<-|[]]. contradiction.
      * intros d'. rewrite Hlabels. rewrite in_app_iff. cbn.
        split; [intros [?|[?|[]]]; auto | intros [?|?]; auto].
      * intros d' st' [Hst|[Hst|[]]]%in_app_or.
        -- assert (d' <> d).
           { intros ->. apply Hnot. change d with (fst (d, st')). now apply in_map. }
           rewrite Hother by assumption. now apply Hfil.
        -- injection Hst as <- <-. rewrite Hsame.
           replace (filter (has_label d) l) with (@nil (stop coord)); [reflexivity|].
           symmetry. destruct (filter (has_label d) l) as [|y ys] eqn:Ef; [reflexivity|].
           exfalso. apply Hnot. apply Hkeys. exists y.
           assert (Hy : In y (filter (has_label d) l)) by (rewrite Ef; now left).
           apply filter_In in Hy as [Hy Hl]. split; [assumption|].
           unfold has_label in Hl. now apply String.eqb_eq in Hl.
Qed.

Lemma last_case l : l = [] \/ exists l0 s, l = l0 ++ [s].
Proof.
  destruct l as [|x l] using rev_ind; [now left | right; eauto].
Qed.

Lemma same_day_consecutive_prefix l s :
  same_day_consecutive (l ++ [s]) -> same_day_consecutive l.
Proof.
  intros Hc l1 a l2 b l3 -> Hab c Hin.
  apply (Hc l1 a l2 b (l3 ++ [s])%list); try assumption.
  list_eq.
Qed.

Lemma concat_snd_snoc days (d : string) (stops : list (stop coord)) :
  List.concat (map snd (days ++ [(d, stops)])) = (List.concat (map snd days) ++ stops)%list.
Proof. rewrite map_app, concat_app. cbn. now rewrite app_nil_r. Qed.

(** When same-day stops are consecutive, the groups laid end to end are the
    itinerary, and the last group is the one of the last stop. *)
Lemma group_days_consecutive l :
  same_day_consecutive l ->
  List.concat (map snd (group_days l)) = l
  /\ (forall l0 s, l = (l0 ++ [s])%list ->
        exists days0 stops,
          group_days l = (days0 ++ [(day_label s, stops)])%list
          /\ ~ In (day_label s) (map fst days0)).
Proof.
  induction l as [|x l IH] using rev_ind; intros Hc.
  - split; [reflexivity|]. intros l0 s E. destruct l0; discriminate.
  - specialize (IH (same_day_consecutive_prefix _ _ Hc)) as [Hcat Hlast].
    rewrite group_days_snoc.
    assert (Hgoal : exists days0 stops,
              days_append (day_label x) x (group_days l)
              = (days0 ++ [(day_label x, stops)])%list
              /\ ~ In (day_label x) (map fst days0)
              /\ List.concat (map snd (days0 ++ [(day_label x, stops)]))
                 = (l ++ [x])%list).
    { destruct (last_case l) as [->|(l0 & s & ->)].
      - exists [], [x]. repeat split. intros [].
      - destruct (Hlast l0 s eq_refl) as (days0 & stops & E & Hnot).
        rewrite E in *. rewrite concat_snd_snoc in Hcat.
        destruct (string_dec (day_label x) (day_label s)) as [Heq|Hne].
        + rewrite Heq. exists days0, (stops ++ [x])%list.
          rewrite days_append_old by assumption. repeat split; [assumption|].
          now rewrite concat_snd_snoc, app_assoc, Hcat.
        + assert (Hnew : ~ In (day_label x) (map fst (days0 ++ [(day_label s, stops)]))).
          { rewrite <- E. intros Hin.
            apply (proj1 (proj2 (group_days_invariant (l0 ++ [s])))) in Hin
              as (s' & Hs' & Hlab).
            apply in_app_or in Hs' as [Hs'|[<-|[]]]; [|congruence].
            apply in_split in Hs' as (l1 & l2 & ->).
            apply Hne. symmetry. rewrite <- Hlab.
            apply (Hc l1 s' (l2 ++ [s])%list x []).
            - list_eq.
            - assumption.
            - apply in_or_app. right. now left. }
          exists (days0 ++ [(day_label s, stops)])%list, [x].
          rewrite days_append_new by assumption. repeat split; [assumption|].
          now rewrite !concat_snd_snoc, Hcat. }
    destruct Hgoal as (days0 & stops & E & Hnot & Hcat').
    rewrite E. split; [assumption|].
    intros l0 s [-> <-]%app_inj_tail. now exists days0, stops.
Qed.

(** Every group holds a stop. *)
Lemma group_days_nonempty l d stops :
  In (d, stops) (group_days l) -> stops <> [].
Proof.
  intros Hin. destruct (group_days_invariant l) as (_ & Hkeys & Hfil).
  assert (Hd : In d (map fst (group_days l)))
    by (change d with (fst (d, stops)); now apply in_map).
  apply Hkeys in Hd as (s & Hs & Hlab).
  rewrite (Hfil d stops Hin). intros Hnil.
  assert (Hf : In s (filter (has_label d) l)).
  { apply filter_In. split; [assumption|]. unfold has_label. now apply String.eqb_eq. }
  now rewrite Hnil in Hf.
Qed.

End Grouping.

(** * Day labels and calendar dates *)

Section Calendar.

Local Open Scope list_scope.

Lemma distinct_NoDup {A : Type} (eqb : A -> A -> bool) (l : list A) :
  (forall x, eqb x x = true) -> distinct eqb l = true -> NoDup l.
Proof.
  intros Hrefl. induction l as [|x l IH]; cbn [distinct]; [constructor|].
  intros [Hx Hl]%andb_prop. constructor; [|now apply IH].
  intros Hin. apply negb_true_iff in Hx.
  assert (existsb (eqb x) l = true) by (apply existsb_exists; eauto).
  congruence.
Qed.

Lemma NoDup_map_injective {A B : Type} (f : A -> B) (l : list A) x y :
  NoDup (map f l) -> In x l -> In y l -> f x = f y -> x = y.
Proof.
  induction l as [|a l IH]; [contradiction|].
  cbn [map]. intros Hnd Hx Hy Hf. apply NoDup_cons_iff in Hnd as [Ha Hnd].
  destruct Hx as [->|Hx], Hy as [->|Hy]; auto.
  - exfalso. apply Ha. rewrite Hf. now apply in_map.
  - exfalso. apply Ha. rewrite <- Hf. now apply in_map.
Qed.

Lemma date_eqb_refl a : date_eqb a a = true.
Proof. destruct a as [[y m] d]. cbn. now rewrite !Z.eqb_refl. Qed.

Lemma window_day_texts : NoDup (map Datetime.day_text window_days).
Proof.
  apply (distinct_NoDup String.eqb); [apply String.eqb_refl|].
  vm_compute. reflexivity.
Qed.

Lemma window_dates : NoDup (map Datetime.ord2ymd window_days).
Proof.
  apply (distinct_NoDup date_eqb); [apply date_eqb_refl|].
  vm_compute. reflexivity.
Qed.

Lemma toordinal_mono t t' : t <= t' -> Datetime.toordinal t <= Datetime.toordinal t'.
Proof.
  intros Hle. unfold Datetime.toordinal.
  pose proof (Z.div_le_mono t t' 86400 ltac:(lia) Hle). lia.
Qed.

Lemma in_window_day t : in_window t -> In (Datetime.toordinal t) window_days.
Proof.
  intros [Hlo Hhi]. unfold window_days. apply in_map_iff.
  pose proof (toordinal_mono _ _ Hlo) as Hord.
  assert (Hup : Datetime.toordinal t < Datetime.toordinal TRIP_START_TIME + 2191).
  { unfold Datetime.toordinal at 1.
    assert (t / 86400 < 741863); [|change (Datetime.toordinal TRIP_START_TIME) with 739673; lia].
    apply Z.div_lt_upper_bound; [lia|].
    change first_recurrence with (86400 * 741863) in Hhi. exact Hhi. }
  exists (Z.to_nat (Datetime.toordinal t - Datetime.toordinal TRIP_START_TIME)).
  split; [lia|]. apply in_seq. unfold days_to_recurrence. lia.
Qed.

(** Within the window a day label stands for one day, and so does a
    calendar date. *)
Lemma window_label_date t t' :
  in_window t -> in_window t' ->
  (Datetime.strftime_day t = Datetime.strftime_day t'
   <-> Datetime.calendar_date t = Datetime.calendar_date t').
Proof.
  intros Ht%in_window_day Ht'%in_window_day.
  unfold Datetime.strftime_day, Datetime.calendar_date. split; intros E.
  - now rewrite (NoDup_map_injective _ _ _ _ window_day_texts Ht Ht' E).
  - now rewrite (NoDup_map_injective _ _ _ _ window_dates Ht Ht' E).
Qed.

Lemma window_label_day t t' :
  in_window t -> in_window t' ->
  Datetime.strftime_day t = Datetime.strftime_day t' ->
  Datetime.toordinal t = Datetime.toordinal t'.
Proof.
  intros Ht%in_window_day Ht'%in_window_day E.
  apply (NoDup_map_injective _ _ _ _ window_day_texts Ht Ht' E).
Qed.

End Calendar.

Section Order.

Context {coord : Type} `{Coord coord} `{Repr}.

Local Open Scope list_scope.

(** With no negative stay and no negative drive nothing arrives before the
    clock's first reading. *)
Lemma run_from_lower_bound t df stops ls :
  run_from t df stops ls -> Forall no_negative_time ls ->
  forall s, In s stops -> t <= Stop.arrival s.
Proof.
  induction 1 as [t df | t row df drive_time ds
                  | t row df drive_time ds d stops ls Hd Hrun IH];
    intros Hpos s Hin.
  - contradiction.
  - destruct Hin as [<-|[]]. cbn. lia.
  - apply Forall_cons_iff in Hpos as [[Hstay Hdrive] Hpos]. cbn [fst snd] in *.
    destruct Hin as [<-|Hin]; [cbn; lia|].
    specialize (IH Hpos s Hin). specialize (Hdrive d Hd). lia.
Qed.

(** ... and the stops come in the order of their arrivals. *)
Lemma run_from_sorted t df stops ls :
  run_from t df stops ls -> Forall no_negative_time ls ->
  StronglySorted earlier stops.
Proof.
  induction 1 as [t df | t row df drive_time ds
                  | t row df drive_time ds d stops ls Hd Hrun IH];
    intros Hpos.
  - constructor.
  - repeat constructor.
  - pose proof (run_from_lower_bound _ _ _ _ Hrun) as Hlow.
    apply Forall_cons_iff in Hpos as [[Hstay Hdrive] Hpos]. cbn [fst snd] in *.
    constructor; [now apply IH|].
    apply Forall_forall. intros s Hin. unfold earlier. cbn.
    specialize (Hlow Hpos s Hin). specialize (Hdrive d Hd). lia.
Qed.

Lemma sorted_between (l1 l2 l3 : list (stop coord)) a b :
  StronglySorted earlier (l1 ++ a :: l2 ++ b :: l3) ->
  forall c, In c l2 -> earlier a c /\ earlier c b.
Proof.
  induction l1 as [|x l1 IH]; cbn [app]; intros Hs c Hc.
  - apply StronglySorted_inv in Hs as [Hs Ha]. split.
    + rewrite Forall_forall in Ha. apply Ha. apply in_or_app. now left.
    + clear Ha. induction l2 as [|y l2 IH2]; [contradiction|].
      cbn [app] in Hs. apply StronglySorted_inv in Hs as [Hs Hy].
      destruct Hc as [<-|Hc]; [|now apply IH2].
      rewrite Forall_forall in Hy. apply Hy. apply in_or_app. right. now left.
  - apply StronglySorted_inv in Hs as [Hs _]. now apply IH.
Qed.

(** Stops in the order of their arrivals, all within the window: those of
    one day label are consecutive. *)
Lemma sorted_window_consecutive (l : list (stop coord)) :
  StronglySorted earlier l ->
  Forall (fun s => in_window (Stop.arrival s)) l ->
  same_day_consecutive l.
Proof.
  intros Hs Hw l1 a l2 b l3 -> Hab c Hc.
  destruct (sorted_between _ _ _ _ _ Hs c Hc) as [Hac Hcb].
  rewrite Forall_forall in Hw.
  assert (Wa : in_window (Stop.arrival a))
    by (apply Hw, in_or_app; right; now left).
  assert (Wb : in_window (Stop.arrival b))
    by (apply Hw, in_or_app; right; right; apply in_or_app; right; now left).
  assert (Wc : in_window (Stop.arrival c))
    by (apply Hw, in_or_app; right; right; apply in_or_app; now left).
  pose proof (window_label_day _ _ Wa Wb Hab) as Eab.
  pose proof (toordinal_mono _ _ Hac). pose proof (toordinal_mono _ _ Hcb).
  unfold day_label, Datetime.strftime_day. f_equal. lia.
Qed.

End Order.

(** C6 (as the code has it).  Stops are bucketed by the day label of their
    arrival, which names the weekday, the month and the day of the month and
    leaves the year out: there is one day group for a label, two stops of
    an itinerary stand in one day group exactly when their labels are equal, and arrivals that agree in weekday,
    month and day of the month have equal labels whatever their years.  For
    arrivals from the trip start up to 2032-02-26, when a label first
    recurs, two stops stand in one group exactly when their arrivals fall on
    the same calendar date. *)
Theorem day_groups_by_label {coord : Type} (itinerary : list (stop coord)) :
  NoDup (map fst (group_days itinerary))
  /\ (forall s s', In s itinerary -> In s' itinerary ->
      (same_group itinerary s s' <-> day_label s = day_label s'))
  /\ (forall s s' : stop coord,
      Datetime.weekday (Stop.arrival s) = Datetime.weekday (Stop.arrival s') ->
      Datetime.month (Stop.arrival s) = Datetime.month (Stop.arrival s') ->
      Datetime.day (Stop.arrival s) = Datetime.day (Stop.arrival s') ->
      day_label s = day_label s')
  /\ (forall s s', In s itinerary -> In s' itinerary ->
      in_window (Stop.arrival s) -> in_window (Stop.arrival s') ->
      (same_group itinerary s s'
       <-> Datetime.calendar_date (Stop.arrival s)
           = Datetime.calendar_date (Stop.arrival s'))).
Proof.
  destruct (group_days_invariant itinerary) as (Hnd & Hkeys & Hfil).
  assert (Hsame : forall s s', In s itinerary -> In s' itinerary ->
            (same_group itinerary s s' <-> day_label s = day_label s')).
  { intros s s' Hs Hs'. split.
    - intros (d & stops & Hin & H1 & H2).
      rewrite (Hfil d stops Hin) in H1, H2.
      apply filter_In in H1 as [_ H1]. apply filter_In in H2 as [_ H2].
      unfold has_label in *. apply String.eqb_eq in H1, H2. congruence.
    - intros E.
      assert (Hd : In (day_label s) (map fst (group_days itinerary)))
        by (apply Hkeys; eauto).
      apply in_map_iff in Hd as ([d stops] & Hd & Hin). cbn [fst] in Hd. subst d.
      exists (day_label s), stops. split; [assumption|].
      rewrite (Hfil _ _ Hin).
      split; apply filter_In; (split; [assumption|]); unfold has_label;
        apply String.eqb_eq; congruence. }
  split; [exact Hnd | split; [exact Hsame | split]].
  - intros s s' Hw Hm Hd. unfold day_label, Datetime.strftime_day, Datetime.day_text.
    unfold Datetime.weekday, Datetime.month, Datetime.day in *.
    destruct (Datetime.ord2ymd (Datetime.toordinal (Stop.arrival s))) as [[y m] d].
    destruct (Datetime.ord2ymd (Datetime.toordinal (Stop.arrival s'))) as [[y' m'] d'].
    cbn [fst snd] in *. now rewrite Hw, Hm, Hd.
  - intros s s' Hs Hs' Ws Ws'. rewrite (Hsame s s' Hs Hs').
    apply window_label_date; assumption.
Qed.

(** C6, the claim as written fails: after a stay of 2191 days the second
    stop arrives on 2032-02-26, a Thursday like 2026-02-26, and the one day
    group "Thursday, February 26" holds both stops. *)
Lemma day_group_across_years :
  map (fun day => (fst day,
                   map (fun s => Datetime.calendar_date (Stop.arrival s)) (snd day)))
      (group_days (itinerary (fst (loop failing_router [sabbatical; cafe] initial))))
  = [("Thursday, February 26", [(2026, 2, 26); (2032, 2, 26)])].
Proof. vm_compute. reflexivity. Qed.

(** C7 (as the code has it).  Every day group holds, in itinerary order,
    exactly the stops that carry its label.  When the stops that share a day
    label are consecutive in the itinerary, the groups laid end to end in
    the order of their creation are the itinerary.  That is so for the
    itinerary the loop builds whenever no stay and no drive is negative and
    every stop arrives before 2032-02-26. *)
Theorem day_groups_concat {coord : Type} `{Coord coord} `{Repr} :
  (forall (l : list (stop coord)) d stops,
      In (d, stops) (group_days l) -> stops = filter (has_label d) l)
  /\ (forall l : list (stop coord),
      same_day_consecutive l -> List.concat (map snd (group_days l)) = l)
  /\ (forall (gmaps : router coord) (df : list (Row.row coord)),
      let st := fst (loop gmaps df initial) in
      Forall no_negative_time (locals st) ->
      Forall (fun s => Stop.arrival s < first_recurrence) (itinerary st) ->
      List.concat (map snd (group_days (itinerary st))) = itinerary st).
Proof.
  split; [|split].
  - intros l. apply group_days_invariant.
  - intros l. apply group_days_consecutive.
  - intros gmaps df st. subst st.
    destruct (loop gmaps df initial) as [st r] eqn:E.
    apply loop_run in E as (stops & ls & Hit & Hloc & Hrun & _).
    cbn [fst initial itinerary locals current_time app] in *.
    rewrite Hit, Hloc. intros Hpos Hend.
    apply group_days_consecutive, sorted_window_consecutive.
    + apply (run_from_sorted _ _ _ _ Hrun Hpos).
    + apply Forall_forall. intros s Hs. split.
      * apply (run_from_lower_bound _ _ _ _ Hrun Hpos s Hs).
      * rewrite Forall_forall in Hend. now apply Hend.
Qed.

(** C7, the claim as written fails: the second stop stays minus two hours,
    so the third arrives back on the day of the first and joins its group;
    laid end to end the groups give first, third, second. *)
Lemma day_groups_reorder :
  map Stop.name
    (List.concat
       (map snd (group_days
                   (itinerary (fst (loop failing_router [museum; back; cafe] initial))))))
  = [Str "Museum"; Str "Cafe"; Str "Back"]
  /\ map Stop.name (itinerary (fst (loop failing_router [museum; back; cafe] initial)))
     = [Str "Museum"; Str "Back"; Str "Cafe"]
  /\ List.concat
       (map snd (group_days
                   (itinerary (fst (loop failing_router [museum; back; cafe] initial)))))
     <> itinerary (fst (loop failing_router [museum; back; cafe] initial)).
Proof.
  split; [vm_compute; reflexivity | split; [vm_compute; reflexivity|]].
  intros E. apply (f_equal (map Stop.name)) in E. vm_compute in E. discriminate.
Qed.

(** The same reordering without a negative stay: a stay of 2190 days on the
    second day brings the third stop to 2032-02-26 and into the group of
    the first. *)
Lemma day_groups_reorder_across_years :
  map Stop.name
    (List.concat
       (map snd (group_days
                   (itinerary
                      (fst (loop failing_router
                              [museum; sample_row "Long" 48 2 (Str "52560:0") NaN; cafe]
                              initial))))))
  = [Str "Museum"; Str "Cafe"; Str "Long"].
Proof. vm_compute. reflexivity. Qed.

(** * The renderers and [main] *)

(** C8.  For every day group of an itinerary the full-day route link is the
    directions base URL followed by the "latitude,longitude" pairs of the
    group's stops, in visit order, joined by "/"; the text renderer writes
    it in its "FULL DAY ROUTE MAP" line and the HTML renderer writes the
    same link as the target of its map button. *)
Theorem full_day_route_link {coord : Type} `{Coord coord}
    (itinerary : list (stop coord)) (d : string) (stops : list (stop coord)) :
  In (d, stops) (group_days itinerary) ->
  let url :=
    "https://www.google.com/maps/dir/"
    ++ join "/" (map (fun s => coord_fmt (Stop.lat s) ++ "," ++ coord_fmt (Stop.lng s))
                     stops) in
  get_daily_route_link stops = url
  /\ nth_error (txt_day (d, stops)) 1
     = Some ("🗺️ FULL DAY ROUTE MAP: " ++ url ++ nl ++ nl)
  /\ nth_error (html_day (d, stops)) 1
     = Some ("<a class='map-btn' href='" ++ url
             ++ "'>View Map For Entire Day's Route!</a>")
  /\ In ("🗺️ FULL DAY ROUTE MAP: " ++ url ++ nl ++ nl)
        (render_txt (group_days itinerary))
  /\ In ("<a class='map-btn' href='" ++ url
         ++ "'>View Map For Entire Day's Route!</a>")
        (render_html (group_days itinerary)).
Proof.
  intros Hin url.
  assert (Hurl : get_daily_route_link stops = url).
  { pose proof (group_days_nonempty _ _ _ Hin) as Hne.
    destruct stops; [contradiction | reflexivity]. }
  split; [exact Hurl|].
  assert (Htxt : nth_error (txt_day (d, stops)) 1
                 = Some ("🗺️ FULL DAY ROUTE MAP: " ++ url ++ nl ++ nl))
    by (cbn [txt_day List.concat app nth_error]; now rewrite Hurl).
  assert (Hhtml : nth_error (html_day (d, stops)) 1
                  = Some ("<a class='map-btn' href='" ++ url
                          ++ "'>View Map For Entire Day's Route!</a>"))
    by (cbn [html_day List.concat app nth_error]; now rewrite Hurl).
  split; [exact Htxt | split; [exact Hhtml | split]].
  - unfold render_txt. apply in_flat_map. exists (d, stops).
    split; [assumption | now apply nth_error_In in Htxt].
  - unfold render_html. apply in_concat. eexists. split.
    + right. left. reflexivity.
    + apply in_flat_map. exists (d, stops).
      split; [assumption | now apply nth_error_In in Hhtml].
Qed.

Lemma full_day_route_link_witness :
  In ("Friday, February 27", skipn 1 sample_itinerary) (group_days sample_itinerary)
  /\ get_daily_route_link (skipn 1 sample_itinerary)
     = "https://www.google.com/maps/dir/48,2/43,5"
  /\ nth_error (txt_day ("Friday, February 27", skipn 1 sample_itinerary)) 1
     = Some ("🗺️ FULL DAY ROUTE MAP: " ++ "https://www.google.com/maps/dir/48,2/43,5"
             ++ nl ++ nl)
  /\ nth_error (html_day ("Friday, February 27", skipn 1 sample_itinerary)) 1
     = Some ("<a class='map-btn' href='" ++ "https://www.google.com/maps/dir/48,2/43,5"
             ++ "'>View Map For Entire Day's Route!</a>")
  /\ In ("🗺️ FULL DAY ROUTE MAP: " ++ "https://www.google.com/maps/dir/48,2/43,5"
         ++ nl ++ nl)
        (render_txt (group_days sample_itinerary))
  /\ In ("<a class='map-btn' href='" ++ "https://www.google.com/maps/dir/48,2/43,5"
         ++ "'>View Map For Entire Day's Route!</a>")
        (render_html (group_days sample_itinerary)).
Proof.
  assert (Hin : In ("Friday, February 27", skipn 1 sample_itinerary)
                   (group_days sample_itinerary))
    by (vm_compute; right; left; reflexivity).
  split; [exact Hin|].
  pose proof (full_day_route_link sample_itinerary "Friday, February 27"
                (skipn 1 sample_itinerary) Hin) as P.
  cbv zeta in P.
  set (url := "https://www.google.com/maps/dir/" ++ join "/" _) in P.
  assert (Hurl : url = "https://www.google.com/maps/dir/48,2/43,5")
    by (vm_compute; reflexivity).
  clearbody url. subst url. exact P.
Defined.

(** C9.  Without the credential in the environment [main] prints the error
    line, writes no file and ends, whatever the table and the collaborator
    are. *)
Theorem missing_credential {coord : Type} `{Coord coord} `{Repr} (w : env coord) :
  API_KEY w = None ->
  main w = {| printed := [ "❌ Error: GOOGLE_MAPS_API_KEY not set." ];
              files := [];
              uncaught := None |}.
Proof. intros Hkey. unfold main. now rewrite Hkey. Qed.

Lemma missing_credential_witness :
  main no_key_env = {| printed := [ "❌ Error: GOOGLE_MAPS_API_KEY not set." ];
                       files := [];
                       uncaught := None |}.
Proof. apply (missing_credential no_key_env). reflexivity. Defined.

(** C10.  The stop made from a row without comments stores the text "nan";
    the text renderer writes its comments line with "nan" and the HTML
    renderer writes its comment box with "nan". *)
Theorem absent_comment_is_nan {coord : Type} `{Coord coord} `{Repr}
    (gmaps : router coord) (df : list (Row.row coord)) (i : nat)
    (row : Row.row coord) (s : stop coord) :
  nth_error df i = Some row ->
  nth_error (itinerary (fst (loop gmaps df initial))) i = Some s ->
  Row.comments row = NaN ->
  Stop.comments s = "nan"
  /\ In ("   💬 Info:    nan" ++ nl) (txt_stop s)
  /\ In "<div class='comment-box'>💬 <b>Info:</b> nan</div>" (html_stop s).
Proof.
  intros Hrow Hs Hnan.
  destruct (loop gmaps df initial) as [st r] eqn:E.
  apply loop_run in E as (stops & ls & Hit & _ & Hrun & _).
  cbn [fst initial itinerary app] in *. rewrite Hit in Hs.
  destruct (run_from_stop _ _ _ _ Hrun i s Hs) as (row' & ds & dt & Hrow' & _ & Hmk).
  assert (row' = row) by congruence. subst row'.
  assert (Hc : Stop.comments s = "nan").
  { rewrite Hmk. cbn [make_stop Stop.comments]. now rewrite Hnan. }
  split; [exact Hc | split].
  - unfold txt_stop. rewrite Hc. apply in_concat. eexists. split.
    + right. right. right. left. reflexivity.
    + left. reflexivity.
  - unfold html_stop. rewrite Hc. apply in_concat. eexists. split.
    + right. left. reflexivity.
    + left. reflexivity.
Qed.

Lemma absent_comment_is_nan_witness :
  Stop.comments museum_stop = "nan"
  /\ In ("   💬 Info:    nan" ++ nl) (txt_stop museum_stop)
  /\ In "<div class='comment-box'>💬 <b>Info:</b> nan</div>" (html_stop museum_stop).
Proof.
  apply (absent_comment_is_nan failing_router [museum] 0 museum museum_stop);
    reflexivity.
Defined.

(** * More of the script: stays, stops and calls *)

Lemma format_stay_string_parts (h m s : Z) :
  0 <= m < 60 -> 0 <= s < 60 ->
  format_stay_string (h * 3600 + m * 60 + s)
  = str_of_int h ++ " hour(s) " ++ str_of_int m ++ " minutes".
Proof.
  intros Hm Hs. unfold format_stay_string, Timedelta.total_seconds. cbv zeta.
  assert (Hq : (h * 3600 + m * 60 + s) / 3600 = h).
  { symmetry. apply (Z.div_unique _ _ _ (m * 60 + s)); lia. }
  assert (Hr : (h * 3600 + m * 60 + s) mod 3600 = m * 60 + s).
  { symmetry. apply (Z.mod_unique _ _ h); lia. }
  assert (Hmin : (m * 60 + s) / 60 = m).
  { symmetry. apply (Z.div_unique _ _ _ s); lia. }
  now rewrite Hq, Hr, Hmin.
Qed.

(** X1.  [format_stay_string] prints the whole hours and the minutes from 0
    to 59 of a duration and drops its seconds, rounding towards minus
    infinity: a duration of [h] hours, [m] minutes and [s] seconds with
    [m] and [s] from 0 to 59 prints as "h hour(s) m minutes", also for a
    negative [h]. *)
Theorem format_stay_string_normal (h m s : Z) :
  0 <= m < 60 -> 0 <= s < 60 ->
  format_stay_string (h * 3600 + m * 60 + s)
  = str_of_int h ++ " hour(s) " ++ str_of_int m ++ " minutes".
Proof. exact (format_stay_string_parts h m s). Qed.

Lemma format_stay_string_normal_witness :
  format_stay_string ((-2) * 3600 + 30 * 60 + 59)
  = str_of_int (-2) ++ " hour(s) " ++ str_of_int 30 ++ " minutes".
Proof. apply (format_stay_string_normal (-2) 30 59); lia. Defined.

(** X2.  The stay shown for a row whose stay reads "H:M": minutes of 60 and
    more carry into the hours.  With each part in at most 4300 digits and a
    duration [timedelta] can hold, the text is "q hour(s) r minutes" for
    the quotient [q] and the remainder [r] of 60 H + M by 60. *)
Theorem stay_text_formatted (h m : Z) :
  (digit_count h <= int_max_str_digits)%nat ->
  (digit_count m <= int_max_str_digits)%nat ->
  Timedelta.in_range (h * 3600 + m * 60) = true ->
  format_stay_string (parse_stay (Str (stay_text h m)))
  = str_of_int ((h * 60 + m) / 60) ++ " hour(s) "
    ++ str_of_int ((h * 60 + m) mod 60) ++ " minutes".
Proof.
  intros Hh Hm Hr. rewrite parse_stay_stay_text.
  apply Nat.ltb_ge in Hh. apply Nat.ltb_ge in Hm. rewrite Hh, Hm, Hr. cbn [orb negb].
  replace (h * 3600 + m * 60)
    with (((h * 60 + m) / 60) * 3600 + ((h * 60 + m) mod 60) * 60 + 0)
    by (pose proof (Z.div_mod (h * 60 + m) 60 ltac:(lia)); lia).
  apply format_stay_string_parts; [apply Z.mod_pos_bound | ]; lia.
Qed.

Lemma stay_text_formatted_witness :
  format_stay_string (parse_stay (Str (stay_text 1 90)))
  = str_of_int ((1 * 60 + 90) / 60) ++ " hour(s) "
    ++ str_of_int ((1 * 60 + 90) mod 60) ++ " minutes".
Proof.
  apply (stay_text_formatted 1 90);
    [apply Nat.leb_le; vm_compute; reflexivity
    |apply Nat.leb_le; vm_compute; reflexivity
    |vm_compute; reflexivity].
Defined.

Section MoreLoopFacts.

Context {coord : Type} `{Coord coord} `{Repr}.

Local Open Scope list_scope.

(** The calls a leg leaves behind. *)
Lemma leg_calls (gmaps : router coord) (log : list (call coord)) row next_row :
  snd (drive_to_next_row gmaps log row next_row)
  = if same_coordinates (row, next_row) then log
    else log ++ [call_of (row, next_row)].
Proof.
  unfold drive_to_next_row, same_coordinates, call_of. cbn [fst snd].
  destruct (coord_eq _ _ && coord_eq _ _); reflexivity.
Qed.

(** The calls of a run, over the pairs of rows it got to. *)
Lemma loop_calls (gmaps : router coord) df : forall (st st' : state coord) r,
  loop gmaps df st = (st', r) ->
  exists k,
    calls st'
    = calls st
      ++ map call_of (filter (fun p => negb (same_coordinates p))
                             (firstn k (consecutive df)))
    /\ (r = None -> (List.length (consecutive df) <= k)%nat).
Proof.
  induction df as [|row rest IH]; intros st st' r Hloop.
  - cbn in Hloop. injection Hloop as <- <-. exists 0%nat.
    cbn. rewrite app_nil_r. auto.
  - cbn [loop] in Hloop.
    assert (Hleg : forall log,
      snd match hd_error rest with
          | Some next_row => drive_to_next_row gmaps log row next_row
          | None => (("-", JInt 0), log)
          end
      = log ++ map call_of (filter (fun p => negb (same_coordinates p))
                                   (firstn 1 (consecutive (row :: rest))))).
    { intros log. destruct rest as [|next_row rest']; cbn [hd_error consecutive firstn].
      - cbn. now rewrite app_nil_r.
      - rewrite leg_calls. cbn [filter].
        destruct (same_coordinates (row, next_row)); cbn; [now rewrite app_nil_r | reflexivity]. }
    destruct (iteration_cases gmaps row (hd_error rest) st)
      as [[_ E] | [[_ (e & _ & E)] | [_ (d & _ & _ & E)]]];
      rewrite E in Hloop.
    + injection Hloop as <- <-. exists 0%nat. cbn. rewrite app_nil_r.
      split; [reflexivity | discriminate].
    + injection Hloop as <- <-. exists 1%nat. cbn [calls].
      split; [apply Hleg | discriminate].
    + apply IH in Hloop as (k & Hcalls & Hk). cbn [calls] in Hcalls.
      rewrite Hleg in Hcalls. exists (S k). split.
      * rewrite Hcalls, <- app_assoc. f_equal.
        destruct rest as [|next_row rest']; cbn [consecutive firstn].
        -- cbn. now destruct k.
        -- cbn [filter]. destruct (negb (same_coordinates (row, next_row))); reflexivity.
      * intros Hr. specialize (Hk Hr).
        destruct rest as [|next_row rest']; cbn [consecutive List.length] in *; lia.
Qed.

Lemma consecutive_length (df : list (Row.row coord)) :
  List.length (consecutive df) = Nat.pred (List.length df).
Proof.
  induction df as [|row rest IH]; [reflexivity|].
  destruct rest as [|next_row rest']; [reflexivity|].
  cbn [consecutive List.length] in *. lia.
Qed.

(** The stop a finished run appended last carries the sentinel. *)
Lemma loop_last_stop (gmaps : router coord) df : forall st st' : state coord,
  df <> [] ->
  loop gmaps df st = (st', None) ->
  exists l s row,
    itinerary st' = l ++ [s]
    /\ last df row = row
    /\ Stop.name s = Row.name row
    /\ Stop.drive_to_next s = "-".
Proof.
  induction df as [|row rest IH]; intros st st' Hne Hloop; [contradiction|].
  cbn [loop] in Hloop.
  destruct (iteration_cases gmaps row (hd_error rest) st)
    as [[_ E] | [[_ (e & _ & E)] | [_ (d & _ & _ & E)]]];
    rewrite E in Hloop; try discriminate.
  destruct rest as [|next_row rest'].
  - cbn in Hloop. injection Hloop as <-. cbn [itinerary hd_error fst].
    eexists _, _, row. repeat split.
  - apply IH in Hloop as (l & s & row' & Hit & Hlast & Hname & Hdrive); [|discriminate].
    exists l, s, row'. repeat split; assumption.
Qed.

(** Every arrival is the clock's first reading plus the time of the
    iterations before. *)
Lemma run_from_arrival t df stops ls :
  run_from t df stops ls ->
  forall i s, nth_error stops i = Some s ->
  Stop.arrival s = t + total (map elapsed (firstn i ls)).
Proof.
  induction 1 as [t df | t row df drive_time ds
                  | t row df drive_time ds d stops ls Hd Hrun IH];
    intros i s Hs.
  - destruct i; discriminate.
  - destruct i as [|[|i]]; try discriminate.
    injection Hs as <-. cbn. lia.
  - destruct i as [|i].
    + injection Hs as <-. cbn. lia.
    + cbn [nth_error] in Hs. rewrite (IH i s Hs).
      cbn [firstn map total fold_right]. unfold elapsed at 2, seconds_of.
      cbn [fst snd]. rewrite Hd. fold (total (map elapsed (firstn i ls))). lia.
Qed.

End MoreLoopFacts.

(** X3.  The stops come in the order of the rows: whatever the collaborator
    answers, the stop at index [i] of the itinerary is made from the row at
    index [i]; it has that row's name and coordinates, the formatted stay
    parsed from the row, the text of its comments and the pin link of its
    coordinates. *)
Theorem stops_follow_rows {coord : Type} `{Coord coord} `{Repr}
    (gmaps : router coord) (df : list (Row.row coord)) (i : nat) (s : stop coord) :
  nth_error (itinerary (fst (loop gmaps df initial))) i = Some s ->
  exists row,
    nth_error df i = Some row
    /\ Stop.name s = Row.name row
    /\ Stop.lat s = Row.lat row
    /\ Stop.lng s = Row.lng row
    /\ Stop.stay_str s = format_stay_string (parse_stay (Row.stay row))
    /\ Stop.comments s = cell_str (Row.comments row)
    /\ Stop.pin s = get_pin_link (Row.lat row) (Row.lng row).
Proof.
  intros Hs. destruct (loop gmaps df initial) as [st r] eqn:E.
  apply loop_run in E as (stops & ls & Hit & _ & Hrun & _).
  cbn [fst initial itinerary app] in *. rewrite Hit in Hs.
  destruct (run_from_stop _ _ _ _ Hrun i s Hs) as (row & ds & dt & Hrow & _ & Hmk).
  exists row. split; [assumption|]. rewrite Hmk. repeat split.
Qed.

Lemma stops_follow_rows_witness :
  exists row,
    nth_error [museum; cafe; harbour] 2 = Some row
    /\ Stop.name (nth 2 sample_itinerary museum_stop) = Row.name row
    /\ Stop.lat (nth 2 sample_itinerary museum_stop) = Row.lat row
    /\ Stop.lng (nth 2 sample_itinerary museum_stop) = Row.lng row
    /\ Stop.stay_str (nth 2 sample_itinerary museum_stop)
       = format_stay_string (parse_stay (Row.stay row))
    /\ Stop.comments (nth 2 sample_itinerary museum_stop)
       = cell_str (Row.comments row)
    /\ Stop.pin (nth 2 sample_itinerary museum_stop)
       = get_pin_link (Row.lat row) (Row.lng row).
Proof.
  apply (stops_follow_rows failing_router [museum; cafe; harbour] 2
           (nth 2 sample_itinerary museum_stop)).
  vm_compute. reflexivity.
Defined.

(** X4.  When the loop ends without an exception on a table that is not
    empty, the last stop of the itinerary is the one of the last row and its
    drive label is the sentinel "-": no drive is looked up past the last
    row. *)
Theorem last_stop_sentinel {coord : Type} `{Coord coord} `{Repr}
    (gmaps : router coord) (df : list (Row.row coord)) :
  df <> [] ->
  snd (loop gmaps df initial) = None ->
  exists l s row,
    itinerary (fst (loop gmaps df initial)) = (l ++ [s])%list
    /\ last df row = row
    /\ Stop.name s = Row.name row
    /\ Stop.drive_to_next s = "-".
Proof.
  intros Hne Hr. destruct (loop gmaps df initial) as [st r] eqn:E.
  cbn [snd] in Hr. subst r. cbn [fst].
  apply (loop_last_stop gmaps df initial st Hne E).
Qed.

Lemma last_stop_sentinel_witness :
  exists l s row,
    itinerary (fst (loop half_hour_router [museum; cafe; harbour] initial))
    = (l ++ [s])%list
    /\ last [museum; cafe; harbour] row = row
    /\ Stop.name s = Row.name row
    /\ Stop.drive_to_next s = "-".
Proof.
  apply (last_stop_sentinel half_hour_router [museum; cafe; harbour]).
  - discriminate.
  - vm_compute. reflexivity.
Defined.

(** X5.  The collaborator is asked once for every pair of consecutive rows of
    different coordinates, in row order, with the row as origin and the next
    row as destination, and never else: when the loop ends without an
    exception these are exactly its calls, and in every run the calls are
    those of the first pairs, fewer than there are rows. *)
Theorem calls_made {coord : Type} `{Coord coord} `{Repr}
    (gmaps : router coord) (df : list (Row.row coord)) :
  (snd (loop gmaps df initial) = None ->
   calls (fst (loop gmaps df initial))
   = map call_of (filter (fun p => negb (same_coordinates p)) (consecutive df)))
  /\ (exists k,
        calls (fst (loop gmaps df initial))
        = map call_of (filter (fun p => negb (same_coordinates p))
                              (firstn k (consecutive df))))
  /\ (List.length (calls (fst (loop gmaps df initial)))
      <= Nat.pred (List.length df))%nat.
Proof.
  destruct (loop gmaps df initial) as [st r] eqn:E. cbn [fst snd].
  apply loop_calls in E as (k & Hcalls & Hk). cbn [initial calls app] in Hcalls.
  split; [|split].
  - intros Hr. rewrite Hcalls, firstn_all2; [reflexivity | now apply Hk].
  - now exists k.
  - rewrite Hcalls, length_map, <- consecutive_length.
    etransitivity; [apply filter_length_le|].
    rewrite length_firstn. lia.
Qed.

(** X6.  The arrival of a stop is the trip start time plus the stays and the
    driving seconds of all the stops before it. *)
Theorem arrival_closed_form {coord : Type} `{Coord coord} `{Repr}
    (gmaps : router coord) (df : list (Row.row coord)) (i : nat) (s : stop coord) :
  nth_error (itinerary (fst (loop gmaps df initial))) i = Some s ->
  Stop.arrival s
  = TRIP_START_TIME
    + total (map elapsed (firstn i (locals (fst (loop gmaps df initial))))).
Proof.
  intros Hs. destruct (loop gmaps df initial) as [st r] eqn:E.
  apply loop_run in E as (stops & ls & Hit & Hloc & Hrun & _).
  cbn [fst initial itinerary locals current_time app] in *.
  rewrite Hit in Hs. rewrite Hloc.
  apply (run_from_arrival _ _ _ _ Hrun i s Hs).
Qed.

Lemma arrival_closed_form_witness :
  Stop.arrival (nth 2 (itinerary (fst (loop half_hour_router [museum; cafe; harbour] initial)))
                    museum_stop)
  = TRIP_START_TIME
    + total (map elapsed
               (firstn 2 (locals (fst (loop half_hour_router
                                         [museum; cafe; harbour] initial))))).
Proof.
  apply (arrival_closed_form half_hour_router [museum; cafe; harbour] 2).
  vm_compute. reflexivity.
Defined.

(** X7.  When no stay and no drive is negative, the stops stand in the order
    of their arrivals, none arrives before the trip start time and none
    departs before it arrives. *)
Theorem arrivals_in_order {coord : Type} `{Coord coord} `{Repr}
    (gmaps : router coord) (df : list (Row.row coord)) :
  Forall no_negative_time (locals (fst (loop gmaps df initial))) ->
  StronglySorted earlier (itinerary (fst (loop gmaps df initial)))
  /\ Forall (fun s => TRIP_START_TIME <= Stop.arrival s
                      /\ Stop.arrival s <= Stop.departure s)
            (itinerary (fst (loop gmaps df initial))).
Proof.
  destruct (loop gmaps df initial) as [st r] eqn:E.
  apply loop_run in E as (stops & ls & Hit & Hloc & Hrun & _).
  cbn [fst initial itinerary locals current_time app] in *.
  rewrite Hit, Hloc. intros Hpos. split.
  - apply (run_from_sorted _ _ _ _ Hrun Hpos).
  - apply Forall_forall. intros s Hs. split.
    + apply (run_from_lower_bound _ _ _ _ Hrun Hpos s Hs).
    + apply In_nth_error in Hs as [i Hi].
      destruct (run_from_stop _ _ _ _ Hrun i s Hi) as (row & ds & dt & _ & Hl & Hmk).
      rewrite Forall_forall in Hpos.
      apply nth_error_In in Hl. apply Hpos in Hl as [Hstay _]. cbn [fst] in Hstay.
      rewrite Hmk at 2. cbn [make_stop Stop.departure]. lia.
Qed.

Lemma arrivals_in_order_witness :
  StronglySorted earlier
    (itinerary (fst (loop half_hour_router [museum; harbour] initial)))
  /\ Forall (fun s => TRIP_START_TIME <= Stop.arrival s
                      /\ Stop.arrival s <= Stop.departure s)
            (itinerary (fst (loop half_hour_router [museum; harbour] initial))).
Proof.
  apply (arrivals_in_order half_hour_router [museum; harbour]).
  assert (E : locals (fst (loop half_hour_router [museum; harbour] initial))
              = [(9000, JInt 1800); (3600, JInt 0)])
    by (vm_compute; reflexivity).
  rewrite E.
  apply Forall_cons; [|apply Forall_cons; [|apply Forall_nil]];
    (split; cbn [fst snd]; [lia|]);
    intros d Hd; vm_compute in Hd; injection Hd as <-; lia.
Defined.

(** * More of the script: day groups, reports and [main] *)

Section MoreGrouping.

Context {coord : Type}.

Local Open Scope list_scope.

Implicit Types (l : list (stop coord)) (days : days_t coord) (s : stop coord).

Lemma days_append_perm d s days :
  Permutation (List.concat (map snd (days_append d s days)))
              (List.concat (map snd days) ++ [s]).
Proof.
  induction days as [|[d' stops] rest IH]; cbn [days_append].
  - reflexivity.
  - destruct (String.eqb d d'); cbn [map snd List.concat].
    + rewrite <- !app_assoc. apply Permutation_app_head, Permutation_app_comm.
    + rewrite <- !app_assoc. now apply Permutation_app_head.
Qed.

Lemma days_append_keys d s days :
  map fst (days_append d s days)
  = if existsb (String.eqb d) (map fst days) then map fst days
    else map fst days ++ [d].
Proof.
  induction days as [|[d' stops] rest IH]; cbn [days_append map fst existsb]; [reflexivity|].
  destruct (String.eqb d d'); cbn [orb map fst]; [reflexivity|].
  rewrite IH. now destruct (existsb _ _).
Qed.

Lemma filter_filter_and {A : Type} (p q : A -> bool) (x : list A) :
  filter p (filter q x) = filter (fun a => q a && p a) x.
Proof.
  induction x as [|a x IH]; [reflexivity|]. cbn [filter].
  destruct (q a); cbn [filter andb]; [destruct (p a)|]; now rewrite IH.
Qed.

Lemma filter_all {A : Type} (p : A -> bool) (x : list A) :
  (forall a, p a = true) -> filter p x = x.
Proof.
  intros Hp. induction x as [|a x IH]; [reflexivity|].
  cbn [filter]. now rewrite Hp, IH.
Qed.

(** The keys after the loop over [l], started on [days]. *)
Lemma fold_days_keys l : forall days,
  map fst (fold_left (fun days s => days_append (day_label s) s days) l days)
  = map fst days
    ++ filter (fun x => negb (existsb (String.eqb x) (map fst days)))
              (first_seen (map day_label l)).
Proof.
  induction l as [|s l IH]; intros days; cbn [fold_left map first_seen filter].
  - now rewrite app_nil_r.
  - rewrite IH, days_append_keys.
    destruct (existsb (String.eqb (day_label s)) (map fst days)) eqn:E;
      cbn [negb].
    + f_equal. rewrite filter_filter_and. apply filter_ext. intros x.
      destruct (String.eqb_spec x (day_label s)) as [->|Hne]; cbn [negb andb];
        [now rewrite E | reflexivity].
    + rewrite <- app_assoc. cbn [app]. do 2 f_equal.
      rewrite filter_filter_and. apply filter_ext. intros x.
      rewrite existsb_app. cbn [existsb]. rewrite orb_false_r, negb_orb.
      apply andb_comm.
Qed.

End MoreGrouping.

Lemma group_days_perm {coord : Type} (itinerary : list (stop coord)) :
  Permutation (List.concat (map snd (group_days itinerary))) itinerary.
Proof.
  induction itinerary as [|s l IH] using rev_ind; [reflexivity|].
  rewrite group_days_snoc.
  eapply Permutation_trans; [apply days_append_perm|].
  now apply Permutation_app_tail.
Qed.

(** X8.  Grouping by day neither loses nor repeats a stop: the stops of all
    day groups together are the stops of the itinerary, each as often as it
    stands there. *)
Theorem groups_keep_every_stop {coord : Type} (itinerary : list (stop coord)) :
  Permutation (List.concat (map snd (group_days itinerary))) itinerary
  /\ List.length (List.concat (map snd (group_days itinerary)))
     = List.length itinerary.
Proof.
  split; [apply group_days_perm | apply Permutation_length, group_days_perm].
Qed.

(** X9.  The day groups stand in the order in which their days are first
    seen: their labels are the distinct day labels of the itinerary, each
    at the place of its first occurrence. *)
Theorem groups_in_first_seen_order {coord : Type} (itinerary : list (stop coord)) :
  map fst (group_days itinerary) = first_seen (map day_label itinerary).
Proof.
  unfold group_days. rewrite fold_days_keys. cbn [map app].
  apply filter_all. reflexivity.
Qed.

Section Reports.

Context {coord : Type} `{Coord coord}.

Local Open Scope list_scope.

Lemma count_starting_app p (a b : list string) :
  count_starting p (a ++ b) = (count_starting p a + count_starting p b)%nat.
Proof. unfold count_starting. now rewrite filter_app, length_app. Qed.

Lemma count_starting_flat_map {A : Type} p (f : A -> list string) (n : nat) (l : list A) :
  (forall a, count_starting p (f a) = n) ->
  count_starting p (flat_map f l) = (n * List.length l)%nat.
Proof.
  intros Hf. induction l as [|a l IH]; cbn [flat_map List.length].
  - unfold count_starting. cbn. lia.
  - rewrite count_starting_app, Hf, IH. lia.
Qed.

(** The writes of a stop that start with one of the markers, whatever the
    texts of the stop are. *)
Lemma txt_stop_marked (s : stop coord) :
  filter (String.prefix "📍") (txt_stop s)
  = [ List.hd "" (txt_stop s) ]
  /\ filter (String.prefix "----------") (txt_stop s) = []
  /\ filter (String.prefix "   🚗 Drive:") (txt_stop s)
     = (if String.eqb (Stop.drive_to_next s) "-" then [] else [txt_drive_line s])
  /\ filter (String.prefix "   💬 Info:") (txt_stop s)
     = (if String.eqb (lower (Stop.comments s)) "no comments" then []
        else [txt_info_line s]).
Proof.
  unfold txt_stop, txt_drive_line, txt_info_line, when.
  generalize (String.eqb (lower (Stop.comments s)) "no comments") as c.
  generalize (String.eqb (Stop.drive_to_next s) "-") as b.
  generalize (Datetime.strftime_clock (Stop.arrival s)) as arr.
  generalize (Datetime.strftime_clock (Stop.departure s)) as dep.
  generalize (cell_str (Stop.name s)) as name.
  generalize (Stop.stay_str s) (Stop.drive_to_next s) (Stop.pin s) (Stop.comments s).
  intros stay drive pin comments name dep arr b c.
  destruct b, c; repeat split; vm_compute; reflexivity.
Qed.

Lemma html_stop_marked (s : stop coord) :
  filter (String.prefix "<div class='stop'>") (html_stop s)
  = [ List.hd "" (html_stop s) ]
  /\ filter (String.prefix "<div class='day-box'>") (html_stop s) = []
  /\ filter (String.prefix "🚗 <b>Drive:</b>") (html_stop s)
     = (if String.eqb (Stop.drive_to_next s) "-" then [] else [html_drive_line s])
  /\ filter (String.prefix "<div class='comment-box'>") (html_stop s)
     = (if negb (String.eqb (lower (Stop.comments s)) "no comments")
           && negb (String.eqb (strip (Stop.comments s)) "")
        then [html_comment_box s] else []).
Proof.
  unfold html_stop, html_drive_line, html_comment_box, when.
  generalize (negb (String.eqb (lower (Stop.comments s)) "no comments")
              && negb (String.eqb (strip (Stop.comments s)) "")) as c.
  generalize (String.eqb (Stop.drive_to_next s) "-") as b.
  generalize (Datetime.strftime_clock (Stop.arrival s)) as arr.
  generalize (Datetime.strftime_clock (Stop.departure s)) as dep.
  generalize (cell_str (Stop.name s)) as name.
  generalize (Stop.stay_str s) (Stop.drive_to_next s) (Stop.pin s) (Stop.comments s).
  intros stay drive pin comments name dep arr b c.
  destruct b, c; repeat split; vm_compute; reflexivity.
Qed.

Lemma txt_day_counts (day : string * list (stop coord)) :
  count_starting "📍" (txt_day day) = List.length (snd day)
  /\ count_starting "----------" (txt_day day) = 1%nat.
Proof.
  destruct day as [d stops]. unfold txt_day. cbn [List.concat snd].
  rewrite app_nil_r, !count_starting_app.
  rewrite (count_starting_flat_map "📍" txt_stop 1)
    by (intros s; unfold count_starting; now rewrite (proj1 (txt_stop_marked s))).
  rewrite (count_starting_flat_map "----------" txt_stop 0)
    by (intros s; unfold count_starting;
        now rewrite (proj1 (proj2 (txt_stop_marked s)))).
  generalize (upper d) (get_daily_route_link stops). intros D link.
  split.
  - replace (count_starting "📍" _) with 0%nat by (vm_compute; reflexivity). lia.
  - replace (count_starting "----------" _) with 1%nat by (vm_compute; reflexivity). lia.
Qed.

Lemma html_day_counts (day : string * list (stop coord)) :
  count_starting "<div class='stop'>" (html_day day) = List.length (snd day)
  /\ count_starting "<div class='day-box'>" (html_day day) = 1%nat.
Proof.
  destruct day as [d stops]. unfold html_day. cbn [List.concat snd].
  rewrite app_nil_r, !count_starting_app.
  rewrite (count_starting_flat_map "<div class='stop'>" html_stop 1)
    by (intros s; unfold count_starting; now rewrite (proj1 (html_stop_marked s))).
  rewrite (count_starting_flat_map "<div class='day-box'>" html_stop 0)
    by (intros s; unfold count_starting;
        now rewrite (proj1 (proj2 (html_stop_marked s)))).
  generalize (get_daily_route_link stops). intros link.
  split.
  - replace (count_starting "<div class='stop'>" [_; _]) with 0%nat
      by (vm_compute; reflexivity).
    replace (count_starting "<div class='stop'>" [_]) with 0%nat
      by (vm_compute; reflexivity). lia.
  - replace (count_starting "<div class='day-box'>" [_; _]) with 1%nat
      by (vm_compute; reflexivity).
    replace (count_starting "<div class='day-box'>" [_]) with 0%nat
      by (vm_compute; reflexivity). lia.
Qed.

Lemma count_starting_days p (f : string * list (stop coord) -> list string)
    (days : days_t coord) :
  (forall day, count_starting p (f day) = List.length (snd day)) ->
  count_starting p (flat_map f days) = List.length (List.concat (map snd days)).
Proof.
  intros Hf. induction days as [|day days IH]; [reflexivity|].
  cbn [flat_map map List.concat]. now rewrite count_starting_app, length_app, Hf, IH.
Qed.

End Reports.


Lemma stop_blocks {coord : Type} `{Coord coord} (itinerary : list (stop coord)) :
  count_starting "📍" (render_txt (group_days itinerary)) = List.length itinerary
  /\ count_starting "<div class='stop'>" (render_html (group_days itinerary))
     = List.length itinerary.
Proof.
  pose proof (Permutation_length (group_days_perm itinerary)) as Hlen.
  assert (Hs : count_starting "<div class='stop'>" html_head = 0%nat)
    by (vm_compute; reflexivity).
  unfold render_txt, render_html. cbn [List.concat].
  rewrite app_nil_r, !count_starting_app, Hs.
  rewrite (count_starting_days "📍" txt_day)
    by (intros day; apply txt_day_counts).
  rewrite (count_starting_days "<div class='stop'>" html_day)
    by (intros day; apply html_day_counts).
  rewrite Hlen.
  replace (count_starting "<div class='stop'>" ["</body></html>"]) with 0%nat
    by (vm_compute; reflexivity).
  split; lia.
Qed.

(** X11.  Each report has one block for every stop of the itinerary and one
    header for every day group: among the writes of the text report, as
    many start with the stop marker as the itinerary has stops and as many
    start with the rule of dashes as there are groups; among the writes of
    the HTML page, as many open a stop block as the itinerary has stops and
    as many open a day box as there are groups. *)
Theorem report_blocks {coord : Type} `{Coord coord} (itinerary : list (stop coord)) :
  count_starting "📍" (render_txt (group_days itinerary)) = List.length itinerary
  /\ count_starting "----------" (render_txt (group_days itinerary))
     = List.length (group_days itinerary)
  /\ count_starting "<div class='stop'>" (render_html (group_days itinerary))
     = List.length itinerary
  /\ count_starting "<div class='day-box'>" (render_html (group_days itinerary))
     = List.length (group_days itinerary).
Proof.
  destruct (stop_blocks itinerary) as [Ht Hh].
  assert (Hd : count_starting "<div class='day-box'>" html_head = 0%nat)
    by (vm_compute; reflexivity).
  split; [exact Ht|]. split; [|split; [exact Hh|]].
  - unfold render_txt.
    rewrite (count_starting_flat_map "----------" txt_day 1)
      by (intros day; apply txt_day_counts).
    lia.
  - unfold render_html. cbn [List.concat].
    rewrite app_nil_r, !count_starting_app, Hd.
    rewrite (count_starting_flat_map "<div class='day-box'>" html_day 1)
      by (intros day; apply html_day_counts).
    replace (count_starting "<div class='day-box'>" ["</body></html>"]) with 0%nat
      by (vm_compute; reflexivity).
    lia.
Qed.

Lemma concat_snoc (sep : string) (l : list string) (x : string) :
  l <> [] -> String.concat sep (l ++ [x]) = String.concat sep l ++ sep ++ x.
Proof.
  induction l as [|a l IH]; intros Hne; [contradiction|].
  destruct l as [|b l].
  - reflexivity.
  - change (String.concat sep ((a :: b :: l) ++ [x]))
      with (a ++ sep ++ String.concat sep ((b :: l) ++ [x])).
    rewrite IH by discriminate.
    change (String.concat sep (a :: b :: l))
      with (a ++ sep ++ String.concat sep (b :: l)).
    now rewrite !append_assoc.
Qed.

(** X12.  The full-day route link grows with the day: for a group that is
    not empty, one more stop at its end adds "/" and the stop's
    "latitude,longitude" pair at the end of the link and leaves the rest as
    it was. *)
Theorem route_link_grows {coord : Type} `{Coord coord}
    (stops : list (stop coord)) (s : stop coord) :
  stops <> [] ->
  get_daily_route_link (stops ++ [s])
  = get_daily_route_link stops ++ "/" ++ path_segment s.
Proof.
  intros Hne. unfold get_daily_route_link.
  destruct stops as [|a l]; [contradiction|].
  cbn [app]. cbv zeta. unfold join.
  change (a :: (l ++ [s])%list) with ((a :: l) ++ [s])%list.
  rewrite map_app. cbn [map].
  rewrite concat_snoc by discriminate.
  now rewrite append_assoc.
Qed.

Lemma route_link_grows_witness :
  get_daily_route_link ([museum_stop] ++ [museum_stop])
  = get_daily_route_link [museum_stop] ++ "/" ++ path_segment museum_stop.
Proof. apply (route_link_grows [museum_stop] museum_stop). discriminate. Defined.

(** X13.  A drive the service found.  Between two rows of different
    coordinates, when the call answers and the first element of the first
    row of the answer has the status "OK" and a duration with a text and a
    value, the drive label is that text with "hours" shortened to "hrs"
    and "mins" to "min", the driving seconds are that value, and the call
    is added to the calls made; what else the answer holds is not looked
    at. *)
Theorem found_drive {coord : Type} `{Coord coord} `{Repr}
    (gmaps : router coord) (log : list (call coord))
    (row next_row : Row.row coord) (res element duration : json)
    (text : string) (value : json) :
  same_coordinates (row, next_row) = false ->
  gmaps log (call_of (row, next_row)) = Ok res ->
  element_of res = Ok element ->
  get element "status" = Ok (JStr "OK") ->
  getitem element "duration" = Ok duration ->
  getitem duration "text" = Ok (JStr text) ->
  getitem duration "value" = Ok value ->
  drive_to_next_row gmaps log row next_row
  = ((replace "mins" "min" (replace "hours" "hrs" text), value),
     (log ++ [call_of (row, next_row)])%list).
Proof.
  unfold same_coordinates, call_of. cbn [fst snd].
  intros Hne Hres Hel Hst Hdur Htext Hval.
  unfold drive_to_next_row. rewrite Hne, Hres. cbn [bind].
  unfold read_answer. rewrite Hel. cbn [bind]. rewrite Hst. cbn [bind is_ok].
  rewrite String.eqb_refl, Hdur. cbn [bind]. rewrite Htext, Hval. reflexivity.
Qed.

Lemma found_drive_witness :
  drive_to_next_row half_hour_router [] museum harbour
  = ((replace "mins" "min" (replace "hours" "hrs" "30 mins"), JInt 1800),
     ([] ++ [call_of (museum, harbour)])%list).
Proof.
  apply (found_drive half_hour_router [] museum harbour
           (ok_answer "30 mins" (JInt 1800))
           (JDict [("status", JStr "OK");
                   ("duration", JDict [("text", JStr "30 mins"); ("value", JInt 1800)])])
           (JDict [("text", JStr "30 mins"); ("value", JInt 1800)])
           "30 mins" (JInt 1800)); reflexivity.
Defined.




(** X16.  An empty table is no failure: with a credential the client
    accepts and a table without rows, [main] makes no call, reports
    success and writes both files, the text report empty and the HTML page
    with its head and its closing tags and no day box between them. *)
Theorem empty_table {coord : Type} `{Coord coord} `{Repr}
    (w : env coord) (key : string) (u : unit) :
  key <> "" ->
  API_KEY w = Some key ->
  Client w key = Ok u ->
  read_csv w = Ok [] ->
  main w
  = {| printed :=
         [ "🚀 Calculating route data via Google Maps API...";
           "✅ Success! Generated:" ++ nl ++ "   - " ++ TXT_OUTPUT
           ++ nl ++ "   - " ++ HTML_OUTPUT ];
       files :=
         [ (TXT_OUTPUT, "");
           (HTML_OUTPUT, String.concat "" (html_head ++ [ "</body></html>" ])%list) ];
       uncaught := None |}
  /\ calls (fst (loop (distance_matrix w) [] initial)) = [].
Proof.
  intros Hkey Hk Hc Hr. split; [|reflexivity].
  unfold main. rewrite Hk. destruct key; [contradiction|].
  rewrite Hc, Hr. reflexivity.
Qed.

Lemma empty_table_witness :
  main (sample_env [])
  = {| printed :=
         [ "🚀 Calculating route data via Google Maps API...";
           "✅ Success! Generated:" ++ nl ++ "   - " ++ TXT_OUTPUT
           ++ nl ++ "   - " ++ HTML_OUTPUT ];
       files :=
         [ (TXT_OUTPUT, "");
           (HTML_OUTPUT, String.concat "" (html_head ++ [ "</body></html>" ])%list) ];
       uncaught := None |}
  /\ calls (fst (loop (distance_matrix (sample_env [])) [] initial)) = [].
Proof.
  apply (empty_table (sample_env []) "key" tt); [discriminate | reflexivity ..].
Defined.


